(** * sim.launch.py: block placement, colour balancing, model pipeline
      and the ordered startup plan

    A shallow embedding of [src/localization/launch_world/sim.launch.py].

    Conventions of the model.
    - Outside module [Double], Python floats are exact rationals ([Q]) and
      [math.sqrt (s) < d] is decided on the squares: the arithmetic of the
      source without its rounding. Module [Double] has [check_collision]
      and the placement loop on binary64 numbers, operation by operation
      as the source computes them; what is said about the distance between
      accepted blocks is said there.
    - The module-level generator of [random] is a stream of raw draws,
      threaded through every call as part of the interpreter state.
    - A [while True] loop takes a fuel; running out of it is the outcome
      [Spin], which is neither a value nor an exception.
    - The file system is a finite map from paths to contents, and every
      [subprocess.check_output] call is appended to a call log.
    - Writing a file succeeds: an [OSError] of [open (path, 'w')] is not
      modelled, so that [spawn_block] returns is shown of sample runs only. *)

From Stdlib Require Uint63 PrimFloat FloatOps.
From Stdlib Require Import Reals Qreals Lra.
From Stdlib Require Import ZArith QArith Qabs Lia String Ascii List.
From Stdlib Require Import DecimalString DecimalNat Permutation Lqa FinFun.
From stdpp Require Import base gmap strings list.

#[local] Set Warnings "-register-all,-inexact-float".

Open Scope list_scope.
Open Scope string_scope.

(** ** Interpreter state, outcomes and the monad *)

Inductive exn : Type :=
  | ValueError (msg : string)
  | IndexError (msg : string)
  | SubstitutionFailure (msg : string)
  | CalledProcessError (cmd : list string) (returncode : Z)
  | RuntimeError (msg : string).

Record state : Type := mkState {
  rng : nat -> N;                    (* draws still to come *)
  fs : gmap string string;           (* path -> file contents *)
  calls : list (list string)         (* commands run so far, oldest first *)
}.

Inductive outcome (A : Type) : Type :=
  | Ret (a : A)
  | Raise (e : exn)
  | Spin.

Arguments Ret {A} a.
Arguments Raise {A} e.
Arguments Spin {A}.

Definition M (A : Type) : Type := state -> outcome A * state.

Definition ret {A} (a : A) : M A := fun st => (Ret a, st).

Definition raise {A} (e : exn) : M A := fun st => (Raise e, st).

Definition spin {A} : M A := fun st => (Spin, st).

Definition bind {A B} (m : M A) (k : A -> M B) : M B :=
  fun st =>
    match m st with
    | (Ret a, st') => k a st'
    | (Raise e, st') => (Raise e, st')
    | (Spin, st') => (Spin, st')
    end.

(** [try: m except CalledProcessError as e: h e] *)
Definition try_except_CalledProcessError {A}
    (m : M A) (h : list string -> Z -> M A) : M A :=
  fun st =>
    match m st with
    | (Raise (CalledProcessError cmd rc), st') => h cmd rc st'
    | r => r
    end.

Declare Scope py_scope.
Delimit Scope py_scope with py.
Notation "x <- m ;; k" := (bind m (fun x => k))
  (at level 100, m at next level, right associativity) : py_scope.
Open Scope py_scope.

(** [l[i]] for [0 <= i] *)
Definition getitem {A} (l : list A) (i : nat) : M A :=
  match l !! i with
  | Some a => ret a
  | None => raise (IndexError "list index out of range")
  end.

(** ** The [random] module *)

Definition advance (st : state) : state :=
  mkState (fun i => rng st (S i)) (fs st) (calls st).

(** [Random._randbelow (n)]: some integer in [0, n). *)
Definition randbelow (n : N) : M N :=
  fun st => (Ret (rng st 0%nat mod n)%N, advance st).

Definition two53 : N := 9007199254740992.

(** [random.random ()]: a multiple of 2^-53 in [0, 1). *)
Definition random : M Q :=
  fun st => (Ret (Z.of_N (rng st 0%nat mod two53) # 9007199254740992), advance st).

(** [random.uniform (a, b)] is [a + (b - a) * self.random ()]. *)
Definition uniform (a b : Q) : M Q :=
  r <- random ;; ret (a + (b - a) * r)%Q.

(** [random.randint (a, b)] is [randrange (a, b + 1)]. *)
Definition randint (a b : Z) : M Z :=
  if (b + 1 - a <=? 0)%Z then raise (ValueError "empty range for randrange()")
  else j <- randbelow (Z.to_N (b + 1 - a)) ;; ret (a + Z.of_N j)%Z.

(** The loop of [random.sample] over the pool (the branch taken for a
    population of at most 21 elements): [r] rounds are left, round [i]
    picks among [pool[0 : n - i]] and moves the last of them into the
    vacancy. *)
Fixpoint sample_loop {A} (r i n : nat) (pool : list A) : M (list A) :=
  match r with
  | O => ret []
  | S r' =>
      j <- randbelow (N.of_nat (n - i)) ;;
      picked <- getitem pool (N.to_nat j) ;;
      filler <- getitem pool (n - i - 1) ;;
      rest <- sample_loop r' (S i) n (<[N.to_nat j := filler]> pool) ;;
      ret (picked :: rest)
  end.

Definition sample {A} (population : list A) (k : Z) : M (list A) :=
  let n := length population in
  if ((k <? 0) || (Z.of_nat n <? k))%Z
  then raise (ValueError "Sample larger than population or is negative")
  else sample_loop (Z.to_nat k) 0 n population.

(** [random.shuffle (x)]: for i from len-1 down to 1, swap x[i] with
    x[randbelow (i + 1)]. *)
Fixpoint shuffle_loop {A} (i : nat) (x : list A) : M (list A) :=
  match i with
  | O => ret x
  | S i' =>
      j <- randbelow (N.of_nat (i + 1)) ;;
      xi <- getitem x i ;;
      xj <- getitem x (N.to_nat j) ;;
      shuffle_loop i' (<[N.to_nat j := xi]> (<[i := xj]> x))
  end.

Definition shuffle {A} (x : list A) : M (list A) :=
  shuffle_loop (length x - 1) x.

(** ** generate_balanced_colors *)

Definition colors : list string :=
  [ "1.0 1.0 0.0 1";   (* Yellow *)
    "0.0 1.0 0.0 1";   (* Green *)
    "1.0 0.0 0.0 1";   (* Red *)
    "1.0 0.5 0.0 1" ]. (* Orange *)

(** [l * k] on lists; a count below one gives the empty list. *)
Definition list_mul {A} (l : list A) (k : Z) : list A :=
  concat (replicate (Z.to_nat k) l).

Definition generate_balanced_colors (num_blocks : Z) : M (list string) :=
  let base_count := (num_blocks / Z.of_nat (length colors))%Z in
  let remainder := (num_blocks mod Z.of_nat (length colors))%Z in
  let result := list_mul colors base_count in
  result <-
    (if (remainder =? 0)%Z then ret result
     else extra <- sample colors remainder ;; ret (result ++ extra)%list) ;;
  shuffle result.

(** A source of draws read off a finite list, zero afterwards. *)
Definition draws (l : list N) : nat -> N := fun i => nth i l 0%N.

Definition init (l : list N) : state := mkState (draws l) ∅ [].

(** ** Strings *)

Definition dq : string := String "034"%char EmptyString.
Definition nl : string := String "010"%char EmptyString.

(** [str (n)] for an integer [n >= 0] *)
Definition str_nat (n : nat) : string := NilEmpty.string_of_uint (Nat.to_uint n).

(** [str (n)] for an integer *)
Definition str_int (n : Z) : string := NilZero.string_of_int (Z.to_int n).

(** [sub in s] *)
Fixpoint contains (sub s : string) : bool :=
  String.prefix sub s ||
  match s with
  | EmptyString => false
  | String _ s' => contains sub s'
  end.

Definition startswith_sep (s : string) : bool := String.prefix "/" s.

Fixpoint endswith_sep (s : string) : bool :=
  match s with
  | EmptyString => false
  | String c EmptyString => Ascii.eqb c "/"%char
  | String _ s' => endswith_sep s'
  end.

(** One step of [posixpath.join]. *)
Definition path_join2 (path b : string) : string :=
  if startswith_sep b then b
  else if String.eqb path "" || endswith_sep path then path ++ b
  else path ++ "/" ++ b.

Definition os_path_join (a : string) (p : list string) : string :=
  fold_left path_join2 p a.

(** [str (v)] of a float [v], kept as the float it prints: [float] of it
    gives [v] back. *)
Record fstr : Type := str_float { float : Q }.

(** ** Placements *)

(** The dictionary [new_pos]. *)
Record block : Type := mkBlock {
  b_number : string;
  b_type : string;
  b_x : fstr;
  b_y : fstr;
  b_z : string;
  b_R : string;
  b_P : string;
  b_Y : fstr;
  b_color : string
}.

(** 3.141592653589793, the double nearest to pi *)
Definition math_pi : Q := 884279719003555 # 281474976710656.

Definition generate_random_rotation : M (Z * Z * Q) :=
  yaw <- uniform 0 (2 * math_pi) ;; ret (0%Z, 0%Z, yaw).

Definition Qltb (a b : Q) : bool := negb (Qle_bool b a).

(** [math.sqrt (s) < d] for [0 <= s], without rounding, overflow or
    underflow; [Double.check_collision] has the comparison on binary64
    numbers. *)
Definition sqrt_ltb (s d : Q) : bool := Qltb 0 d && Qltb s (d * d).

Fixpoint check_collision (new_pos : block) (existing_positions : list block)
    (min_distance : Q) : bool :=
  match existing_positions with
  | [] => false
  | pos :: rest =>
      let dx := (float (b_x new_pos) - float (b_x pos))%Q in
      let dy := (float (b_y new_pos) - float (b_y pos))%Q in
      if sqrt_ltb (dx * dx + dy * dy) min_distance then true
      else check_collision new_pos rest min_distance
  end.

Definition default_min_distance : Q := 0.15.

Definition block_types : list string :=
  [ "X1-Y1-Z2"; "X1-Y2-Z2"; "X1-Y4-Z2"; "X1-Y2-Z1"; "X1-Y3-Z2-FILLET";
    "X1-Y2-Z2-CHAMFER"; "X1-Y3-Z2"; "X1-Y2-Z2-TWINFILLET"; "X1-Y4-Z1" ].

Definition base_x : Q := 0.1.
Definition base_y : Q := 0.45.

(** One pass through the body of [while True]: the candidate for block [i]. *)
Definition candidate (i : nat) (selected_types colors : list string) : M block :=
  offset_x <- uniform (-0.1) 0.1 ;;
  offset_y <- uniform (-0.25) 0.25 ;;
  rot <- generate_random_rotation ;;
  let '(rot_x, rot_y, rot_z) := rot in
  ty <- getitem selected_types i ;;
  color <- getitem colors i ;;
  ret {| b_number := str_nat (i + 1);
         b_type := ty;
         b_x := str_float (base_x + offset_x);
         b_y := str_float (base_y + offset_y);
         b_z := "0.88";
         b_R := str_int rot_x;
         b_P := str_int rot_y;
         b_Y := str_float rot_z;
         b_color := color |}.

(** The [while True] loop for block [i]; it leaves with the accepted
    candidate. *)
Fixpoint place (fuel : nat) (i : nat) (selected_types colors : list string)
    (existing_positions : list block) : M block :=
  match fuel with
  | O => spin
  | S fuel' =>
      new_pos <- candidate i selected_types colors ;;
      if negb (check_collision new_pos existing_positions default_min_distance)
      then ret new_pos
      else place fuel' i selected_types colors existing_positions
  end.

(** [for i in range (num_blocks)], over the indices still to do; the two
    lists the loop appends to are threaded through. *)
Fixpoint place_all (fuel : nat) (indices : list nat)
    (selected_types colors : list string)
    (existing_positions blocks_config : list block)
    : M (list block * list block) :=
  match indices with
  | [] => ret (existing_positions, blocks_config)
  | i :: indices' =>
      new_pos <- place fuel i selected_types colors existing_positions ;;
      place_all fuel indices' selected_types colors
        (existing_positions ++ [new_pos])%list (blocks_config ++ [new_pos])%list
  end.

(** [range (n)] *)
Definition range (n : Z) : list nat := seq 0 (Z.to_nat n).

(** Lines 59 to 94 of [spawn_block]: the placement generator. *)
Definition generate_placements (fuel : nat) : M (list block) :=
  num_blocks <- randint 4 5 ;;
  selected_types <- sample block_types num_blocks ;;
  colors <- generate_balanced_colors num_blocks ;;
  r <- place_all fuel (range num_blocks) selected_types colors [] [] ;;
  ret (snd r).

(** ** Launch actions *)

Inductive subst : Type :=
  | Text (s : string)
  | LaunchConfiguration (name : string)
  | FindExecutable (name : string)
  | FindPackageShare (package : string)
  | PathJoinSubstitution (parts : list subst)
  | Command (parts : list subst).

Record node : Type := mkNode {
  n_package : string;
  n_executable : string;
  n_output : option string;
  n_namespace : option string;
  n_name : option string;
  n_arguments : list subst;
  n_parameters : list (string * subst)
}.

(** The functions an [OpaqueFunction] can hold in this file. *)
Inductive callable : Type := spawn_block_function.

Inductive action : Type :=
  | DeclareLaunchArgument (name description : string) (choices : list string)
      (default_value : string)
  | AppendEnvironmentVariable (name value : string)
  | Node (n : node)
  | OpaqueFunction (function : callable)
  | IncludeLaunchDescription (source : list subst)
      (launch_arguments : list (string * list subst))
  | RegisterEventHandler (target_action : action) (on_exit : list action).

(** [list.insert (i, x)] *)
Definition py_insert {A} (i : Z) (x : A) (l : list A) : list A :=
  let n := Z.of_nat (length l) in
  let i := if (i <? 0)%Z then Z.max 0 (i + n) else Z.min i n in
  take (Z.to_nat i) l ++ x :: drop (Z.to_nat i) l.

(** [next (i for i, a in enumerate (l) if P a, default)] without the default *)
Fixpoint first_index {A} (P : A -> bool) (l : list A) : option nat :=
  match l with
  | [] => None
  | a :: l' => if P a then Some 0%nat else S <$> first_index P l'
  end.

Definition sensor_block : string :=
  nl ++
  "            <plugin" ++ nl ++
  "                filename=" ++ dq ++ "ignition-gazebo-pose-publisher-system" ++ dq ++ nl ++
  "                name=" ++ dq ++ "ignition::gazebo::systems::PosePublisher" ++ dq ++ ">" ++ nl ++
  "                <publish_model_pose>true</publish_model_pose>" ++ nl ++
  "                <publish_nested_model_pose>true</publish_nested_model_pose>" ++ nl ++
  "                <use_pose_vector_msg>true</use_pose_vector_msg>" ++ nl ++
  "                <update_frequency>100.0</update_frequency>" ++ nl ++
  "            </plugin>" ++ nl ++
  "            ".

Definition insert_index (sdf_lines : list string) : Z :=
  match first_index (contains "</model>") sdf_lines with
  | Some i => Z.of_nat i
  | None => Z.of_nat (length sdf_lines) - 1
  end.

(** Lines 139 to 142: the plugin-injection step on the converter's lines. *)
Definition inject_plugin (sdf_lines : list string) : list string :=
  py_insert (insert_index sdf_lines) sensor_block sdf_lines.

Definition package_name : string := "ros2_ur5_interface".

(** [with open (path, 'w') as f: f.write (content)], for a path that can
    be opened for writing. *)
Definition write_file (path content : string) : M unit :=
  fun st => (Ret tt, mkState (rng st) (<[path := content]> (fs st)) (calls st)).

(** What the launch file takes from its environment. *)
Class Env : Type := {
  get_package_share_directory : string -> string;
  (** [shutil.which], behind [FindExecutable (name).perform (context)] *)
  which : string -> option string;
  (** exit status and standard output of a command, run in a given state *)
  run_process : list string -> state -> Z * string;
  splitlines : string -> list string;
  (** the ['%s'] rendering of a command list *)
  str_list : list string -> string;
  (** [repr (signal.Signals (n))], or ["unknown signal n"] *)
  signal_text : Z -> string;
  (** the text [str] prints for a float *)
  repr_float : Q -> string;
  (** [os.path.dirname] *)
  dirname : string -> string
}.

Section Launch.

Context `{Env}.

Definition text_of (v : fstr) : string := repr_float (float v).

Definition find_executable (name : string) : M string :=
  match which name with
  | Some path => ret path
  | None => raise (SubstitutionFailure ("executable '" ++ name ++ "' not found on the PATH"))
  end.

(** [subprocess.check_output (cmd, text=True)] *)
Definition check_output (cmd : list string) : M string :=
  fun st =>
    let st' := mkState (rng st) (fs st) (calls st ++ [cmd])%list in
    let '(returncode, output) := run_process cmd st in
    if (returncode =? 0)%Z then (Ret output, st')
    else (Raise (CalledProcessError cmd returncode), st').

(** [str (e)] for a [CalledProcessError] *)
Definition str_CalledProcessError (cmd : list string) (returncode : Z) : string :=
  if (returncode <? 0)%Z
  then "Command '" ++ str_list cmd ++ "' died with " ++ signal_text (- returncode) ++ "."
  else "Command '" ++ str_list cmd ++ "' returned non-zero exit status "
         ++ str_int returncode ++ ".".

Definition models_path (name : string) : string :=
  os_path_join (get_package_share_directory package_name) ["models"; name].

Definition urdf_path (b : block) : string :=
  models_path ("block" ++ b_number b ++ ".urdf").

Definition sdf_path (b : block) : string :=
  models_path ("block" ++ b_number b ++ ".sdf").

Definition block_robot_state_publisher_node (b : block) (urdf_output : string) : action :=
  Node {| n_package := "robot_state_publisher";
          n_executable := "robot_state_publisher";
          n_output := Some "screen";
          n_namespace := Some ("block" ++ b_number b);
          n_name := Some "robot_state_publisher";
          n_arguments := [];
          n_parameters := [("robot_description", Text urdf_output)] |}.

Definition spawn_node (b : block) : action :=
  Node {| n_package := "ros_gz_sim";
          n_executable := "create";
          n_output := Some "screen";
          n_namespace := None;
          n_name := None;
          n_arguments :=
            [ Text "-name"; Text ("block" ++ b_number b);
              Text "-file"; Text (sdf_path b);
              Text "-x"; Text (text_of (b_x b));
              Text "-y"; Text (text_of (b_y b));
              Text "-z"; Text (b_z b);
              Text "-R"; Text (b_R b);
              Text "-P"; Text (b_P b);
              Text "-Y"; Text (text_of (b_Y b)) ];
          n_parameters := [] |}.

Definition xacro_file : string := models_path "block.urdf.xacro".

Definition xacro_command (exe : string) (b : block) : list string :=
  [ exe; xacro_file;
    "block_name:=" ++ b_number b;
    "block_type:=" ++ b_type b;
    "block_color:=" ++ b_color b ].

Definition sdf_command (exe : string) (b : block) : list string :=
  [ exe; "sdf"; "-p"; urdf_path b ].

(** Lines 103 to 117: generate the URDF from the Xacro. *)
Definition generate_urdf (b : block) : M string :=
  try_except_CalledProcessError
    (exe <- find_executable "xacro" ;;
     urdf_output <- check_output (xacro_command exe b) ;;
     _ <- write_file (urdf_path b) urdf_output ;;
     ret urdf_output)
    (fun cmd rc =>
       raise (RuntimeError ("Error generating URDF: " ++ str_CalledProcessError cmd rc))).

(** Lines 119 to 148: convert the URDF to SDF and inject the plugin. *)
Definition convert_to_sdf (b : block) : M unit :=
  try_except_CalledProcessError
    (exe <- find_executable "gz" ;;
     sdf_output <- check_output (sdf_command exe b) ;;
     let sdf_lines := splitlines sdf_output in
     let sdf_lines := inject_plugin sdf_lines in
     let modified_sdf_output := String.concat nl sdf_lines in
     write_file (sdf_path b) modified_sdf_output)
    (fun cmd rc =>
       raise (RuntimeError ("Error converting URDF to SDF: " ++ str_CalledProcessError cmd rc))).

(** [for block in blocks_config], appending to [instances_cmds]. *)
Fixpoint build_instances (blocks_config : list block) (instances_cmds : list action)
    : M (list action) :=
  match blocks_config with
  | [] => ret instances_cmds
  | b :: rest =>
      urdf_output <- generate_urdf b ;;
      _ <- convert_to_sdf b ;;
      let instances_cmds := (instances_cmds ++ [block_robot_state_publisher_node b urdf_output])%list in
      let instances_cmds := (instances_cmds ++ [spawn_node b])%list in
      build_instances rest instances_cmds
  end.

Definition spawn_block (fuel : nat) : M (list action) :=
  blocks_config <- generate_placements fuel ;;
  build_instances blocks_config [].

(** ** generate_launch_description *)

Definition ur_type : subst := LaunchConfiguration "ur_type".

Definition share : string := get_package_share_directory package_name.

Definition desk_urdf : subst :=
  Command [ PathJoinSubstitution [FindExecutable "xacro"]; Text " ";
            PathJoinSubstitution [FindPackageShare package_name; Text "models";
                                  Text "desk.urdf.xacro"] ].

Definition robot_description_content : subst :=
  Command
    [ PathJoinSubstitution [FindExecutable "xacro"]; Text " ";
      PathJoinSubstitution [FindPackageShare package_name; Text "models";
                            Text "ur_gz.urdf.xacro"];
      Text " "; Text "safety_limits:="; Text "true";
      Text " "; Text "safety_pos_margin:="; Text "0.15";
      Text " "; Text "safety_k_position:="; Text "20";
      Text " "; Text "name:="; Text "ur";
      Text " "; Text "ur_type:="; ur_type;
      Text " "; Text "tf_prefix:="; Text "";
      Text " "; Text "simulation_controllers:=";
      PathJoinSubstitution [FindPackageShare package_name; Text "config";
                            Text "ur_controllers.yaml"] ].

Definition simple_node (package executable : string) (output : option string)
    (namespace name : option string) (arguments : list subst)
    (parameters : list (string * subst)) : action :=
  Node (mkNode package executable output namespace name arguments parameters).

Definition set_env_vars : action :=
  AppendEnvironmentVariable "GZ_SIM_RESOURCE_PATH"
    (os_path_join share ["models"] ++ ":" ++
       dirname (get_package_share_directory "ur_description")).

Definition fixed_tf_broadcast : action :=
  simple_node "tf2_ros" "static_transform_publisher" (Some "screen") None None
    (map Text ["0"; "0"; "0"; "0"; "0"; "0"; "desk"; "default"]) [].

Definition fixed_camera_tf_broadcast : action :=
  simple_node "tf2_ros" "static_transform_publisher" (Some "screen") None None
    (map Text ["-0.5"; "0.5"; "1.2"; "-0.06"; "0.4"; "0.0"; "desk"; "camera_rgb_frame"]) [].

Definition ur_robot_state_publisher_node : action :=
  simple_node "robot_state_publisher" "robot_state_publisher" (Some "screen") None
    (Some "robot_state_publisher") [] [("robot_description", robot_description_content)].

Definition desk_state_publisher_node : action :=
  simple_node "robot_state_publisher" "robot_state_publisher" (Some "screen")
    (Some "desk") (Some "robot_state_publisher") [] [("robot_description", desk_urdf)].

Definition joint_state_broadcaster_spawner : action :=
  simple_node "controller_manager" "spawner" None None None
    (map Text ["joint_state_broadcaster"; "--controller-manager"; "/controller_manager"]) [].

Definition joint_controller_spawner : action :=
  simple_node "controller_manager" "spawner" None None None
    (map Text ["scaled_joint_trajectory_controller"; "-c"; "/controller_manager"]) [].

Definition gripper_controller_spawner : action :=
  simple_node "controller_manager" "spawner" None None None
    (map Text ["gripper_controller"; "-c"; "/controller_manager"]) [].

Definition world_file : string := os_path_join share ["worlds"; "empty.world"].

Definition gazebo_launch : action :=
  IncludeLaunchDescription
    [FindPackageShare "ros_gz_sim"; Text "/launch/gz_sim.launch.py"]
    [ ("gz_args", [Text "-r -s "; Text world_file]);
      ("on_exit_shutdown", [Text "true"]) ].

Definition spawn_camera : action :=
  simple_node "ros_gz_sim" "create" (Some "screen") None None
    (map Text [ "-name"; "camera"; "-file"; os_path_join share ["models"; "camera.sdf"];
                "-x"; "-0.5"; "-y"; "0.5"; "-z"; "1.2";
                "-R"; "0.0"; "-P"; "0.4"; "-Y"; "-0.06" ]) [].

Definition spawn_ur5 : action :=
  simple_node "ros_gz_sim" "create" (Some "screen") None None
    [Text "-name"; ur_type; Text "-string"; robot_description_content] [].

Definition spawn_desk : action :=
  simple_node "ros_gz_sim" "create" (Some "screen") None None
    [Text "-name"; Text "desk"; Text "-string"; desk_urdf] [].

Definition activate_gripper : action :=
  simple_node "ros2_ur5_interface" "gripper_service" (Some "screen") None None [] [].

Definition bridge_params : string := os_path_join share ["params"; "ur5_bridge.yaml"].

Definition gazebo_ros_bridge : action :=
  simple_node "ros_gz_bridge" "parameter_bridge" (Some "screen") None None
    (map Text ["--ros-args"; "-p"; "config_file:=" ++ bridge_params]) [].

Definition gazebo_ros_image_bridge : action :=
  simple_node "ros_gz_image" "image_bridge" (Some "screen") None None
    [Text "/camera/image_raw/image"] [].

Definition rviz_config_file : string := os_path_join share ["rviz"; "ur5.rviz"].

Definition rviz2 : action :=
  RegisterEventHandler joint_state_broadcaster_spawner
    [ simple_node "rviz2" "rviz2" (Some "screen") None (Some "rviz2")
        [Text "-d"; Text rviz_config_file] [] ].

Definition declared_arguments : list action :=
  [ DeclareLaunchArgument "ur_type" "Type/series of used UR robot."
      ["ur3"; "ur3e"; "ur5"; "ur5e"; "ur10"; "ur10e"; "ur16e"; "ur20"; "ur30"]
      "ur5e" ].

(** The list handed to [LaunchDescription]. *)
Definition generate_launch_description : list action :=
  (declared_arguments ++
  [ set_env_vars;
    fixed_tf_broadcast;
    fixed_camera_tf_broadcast;
    desk_state_publisher_node;
    ur_robot_state_publisher_node;
    OpaqueFunction spawn_block_function;
    joint_state_broadcaster_spawner;
    joint_controller_spawner;
    gripper_controller_spawner;
    gazebo_launch;
    spawn_camera;
    spawn_ur5;
    spawn_desk;
    activate_gripper;
    gazebo_ros_bridge;
    gazebo_ros_image_bridge;
    rviz2 ])%list.

End Launch.

(** * The placement loop in double precision

    Lines 19 to 32 and 59 to 94 once more, with Python's floats as the
    binary64 numbers they are: every [+], [-], [*], [math.sqrt] and [<]
    of the source is the IEEE 754 operation, rounded to nearest. *)

Module Double.

Import PrimFloat.

(** [random.random ()]: the draw times 2^-53; both the conversion of the
    draw, which is below 2^53, and the product are exact. *)
Definition random : M PrimFloat.float :=
  fun st =>
    (Ret (of_uint63 (Uint63.of_Z (Z.of_N (rng st 0%nat mod two53))) * 0x1p-53)%float,
     advance st).

(** [random.uniform (a, b)] is [a + (b - a) * self.random ()]. *)
Definition uniform (a b : PrimFloat.float) : M PrimFloat.float :=
  r <- random ;; ret (a + (b - a) * r)%float.

(** [str (v)] of a float [v], kept as the float it prints: [float] of it
    gives [v] back. *)
Record fstr : Type := str_float { float : PrimFloat.float }.

(** The dictionary [new_pos]. *)
Record block : Type := mkBlock {
  b_number : string;
  b_type : string;
  b_x : fstr;
  b_y : fstr;
  b_z : string;
  b_R : string;
  b_P : string;
  b_Y : fstr;
  b_color : string
}.

(** 3.141592653589793 *)
Definition math_pi : PrimFloat.float := 0x1.921fb54442d18p+1%float.

Definition generate_random_rotation : M (Z * Z * PrimFloat.float) :=
  yaw <- uniform 0 (2 * math_pi) ;; ret (0%Z, 0%Z, yaw).

Fixpoint check_collision (new_pos : block) (existing_positions : list block)
    (min_distance : PrimFloat.float) : bool :=
  match existing_positions with
  | [] => false
  | pos :: rest =>
      let dx := (float (b_x new_pos) - float (b_x pos))%float in
      let dy := (float (b_y new_pos) - float (b_y pos))%float in
      let distance := sqrt (dx * dx + dy * dy) in
      if (distance <? min_distance)%float then true
      else check_collision new_pos rest min_distance
  end.

Definition default_min_distance : PrimFloat.float := 0.15%float.

Definition base_x : PrimFloat.float := 0.1%float.
Definition base_y : PrimFloat.float := 0.45%float.

(** One pass through the body of [while True]: the candidate for block [i]. *)
Definition candidate (i : nat) (selected_types colors : list string) : M block :=
  offset_x <- uniform (-0.1) 0.1 ;;
  offset_y <- uniform (-0.25) 0.25 ;;
  rot <- generate_random_rotation ;;
  let '(rot_x, rot_y, rot_z) := rot in
  ty <- getitem selected_types i ;;
  color <- getitem colors i ;;
  ret {| b_number := str_nat (i + 1);
         b_type := ty;
         b_x := str_float (base_x + offset_x);
         b_y := str_float (base_y + offset_y);
         b_z := "0.88";
         b_R := str_int rot_x;
         b_P := str_int rot_y;
         b_Y := str_float rot_z;
         b_color := color |}.

(** The [while True] loop for block [i]; it leaves with the accepted
    candidate. *)
Fixpoint place (fuel : nat) (i : nat) (selected_types colors : list string)
    (existing_positions : list block) : M block :=
  match fuel with
  | O => spin
  | S fuel' =>
      new_pos <- candidate i selected_types colors ;;
      if negb (check_collision new_pos existing_positions default_min_distance)
      then ret new_pos
      else place fuel' i selected_types colors existing_positions
  end.

(** [for i in range (num_blocks)], over the indices still to do; the two
    lists the loop appends to are threaded through. *)
Fixpoint place_all (fuel : nat) (indices : list nat)
    (selected_types colors : list string)
    (existing_positions blocks_config : list block)
    : M (list block * list block) :=
  match indices with
  | [] => ret (existing_positions, blocks_config)
  | i :: indices' =>
      new_pos <- place fuel i selected_types colors existing_positions ;;
      place_all fuel indices' selected_types colors
        (existing_positions ++ [new_pos])%list (blocks_config ++ [new_pos])%list
  end.

(** Lines 59 to 94 of [spawn_block]: the placement generator. *)
Definition generate_placements (fuel : nat) : M (list block) :=
  num_blocks <- randint 4 5 ;;
  selected_types <- sample block_types num_blocks ;;
  colors <- generate_balanced_colors num_blocks ;;
  r <- place_all fuel (range num_blocks) selected_types colors [] [] ;;
  ret (snd r).

End Double.


(** * Vocabulary of the statements, and sample inputs *)

(** Two states that differ in the draws only. *)
Definition same_world (st st' : state) : Prop :=
  fs st' = fs st /\ calls st' = calls st.

(** [l.count (c)] *)
Definition count (c : string) (l : list string) : Z :=
  Z.of_nat (count_occ string_dec l c).

(** The value of [random.random ()] in a state. *)
Definition unit_draw (st : state) : Q :=
  Z.of_N (rng st 0%nat mod two53) # 9007199254740992.

(** [skip k st]: the state after [k] more draws. *)
Definition skip (k : nat) (st : state) : state := Nat.iter k advance st.

(** The dictionary built from the three draws of one pass. *)
Definition new_pos_of (i : nat) (ty color : string) (r1 r2 r3 : Q) : block :=
  {| b_number := str_nat (i + 1);
     b_type := ty;
     b_x := str_float (base_x + (-0.1 + (0.1 - -0.1) * r1));
     b_y := str_float (base_y + (-0.25 + (0.25 - -0.25) * r2));
     b_z := "0.88";
     b_R := "0";
     b_P := "0";
     b_Y := str_float (0 + (2 * math_pi - 0) * r3);
     b_color := color |}.

(** What every accepted dictionary looks like, for block index [i]. *)
Record is_candidate (i : nat) (selected_types colors : list string) (b : block)
  : Prop := {
  cand_number : b_number b = str_nat (i + 1);
  cand_type : selected_types !! i = Some (b_type b);
  cand_color : colors !! i = Some (b_color b);
  cand_x : exists offset_x : Q,
      float (b_x b) = (base_x + offset_x)%Q /\
      (-0.1 <= offset_x)%Q /\ (offset_x <= 0.1)%Q;
  cand_y : exists offset_y : Q,
      float (b_y b) = (base_y + offset_y)%Q /\
      (-0.25 <= offset_y)%Q /\ (offset_y <= 0.25)%Q;
  cand_z : b_z b = "0.88";
  cand_R : b_R b = "0";
  cand_P : b_P b = "0";
  cand_Y : (0 <= float (b_Y b))%Q /\ (float (b_Y b) < 2 * math_pi)%Q
}.

(** The candidate of the pass that starts in [st], and of pass number [k]
    (from 0) of a loop that starts in [st]. *)
Definition pass0 (i : nat) (ty color : string) (st : state) : block :=
  new_pos_of i ty color (unit_draw st) (unit_draw (skip 1 st)) (unit_draw (skip 2 st)).


(** [accepted existing new]: every block of [new], in order, passed the
    collision check against [existing] and the blocks of [new] before it. *)
Fixpoint accepted (existing new : list block) : Prop :=
  match new with
  | [] => True
  | b :: new' =>
      check_collision b existing default_min_distance = false /\
      accepted (existing ++ [b]) new'
  end.

(** What the placement generator hands on when it returns. *)
Definition generated (blocks : list block) : Prop :=
  exists (num_blocks : Z) (selected_types cols : list string),
    (num_blocks = 4 \/ num_blocks = 5)%Z /\
    List.NoDup selected_types /\
    incl selected_types block_types /\
    length selected_types = Z.to_nat num_blocks /\
    length cols = Z.to_nat num_blocks /\
    Forall2 (fun i b => is_candidate i selected_types cols b) (range num_blocks) blocks /\
    accepted [] blocks.

(** Squared planar distance between the centres of two blocks. *)
Definition planar_distance2 (a b : block) : Q :=
  let dx := (float (b_x a) - float (b_x b))%Q in
  let dy := (float (b_y a) - float (b_y b))%Q in
  (dx * dx + dy * dy)%Q.

(** A run that returns four blocks, spread along y. *)
Definition spread_draws : list N :=
  [ 0; 0; 0; 0; 0; 0; 0; 0;
    0; 0; 1000000000000000;
    0; 3000000000000000; 2000000000000000;
    0; 6000000000000000; 3000000000000000;
    0; 9000000000000000; 4000000000000000 ]%N.

Definition spread_run : outcome (list block) * state :=
  generate_placements 1 (init spread_draws).

Definition spread_blocks : list block :=
  match fst spread_run with Ret blocks => blocks | _ => [] end.

(** A run that returns four blocks whose yaw draws are all the same. *)
Definition same_yaw_draws : list N :=
  [ 0; 0; 0; 0; 0; 0; 0; 0;
    0; 0; 0;
    0; 3000000000000000; 0;
    0; 6000000000000000; 0;
    0; 9000000000000000; 0 ]%N.



Definition first_block : block :=
  new_pos_of 0 "X1-Y1-Z2" "0.0 1.0 0.0 1"
    (0 # 9007199254740992) (0 # 9007199254740992) (0 # 9007199254740992).






(** The directory part every per-block path starts with. *)
Definition models_prefix `{Env} : string :=
  let p := path_join2 (get_package_share_directory package_name) "models" in
  if String.eqb p "" || endswith_sep p then p else p ++ "/".

(** The state after one more command has been run. *)
Definition logged (st : state) (cmd : list string) : state :=
  mkState (rng st) (fs st) (calls st ++ [cmd]).

(** The state after a file has been written. *)
Definition written (st : state) (path content : string) : state :=
  mkState (rng st) (<[path := content]> (fs st)) (calls st).

(** The two nodes appended for one block. *)
Definition block_actions `{Env} (b : block) (urdf_output : string) : list action :=
  [block_robot_state_publisher_node b urdf_output; spawn_node b].

(** Split at line feeds, as [str.splitlines] does on text without other
    line boundaries. *)
Fixpoint split_lines_from (cur s : string) : list string :=
  match s with
  | EmptyString => if String.eqb cur "" then [] else [cur]
  | String c s' =>
      if Ascii.eqb c "010"%char then cur :: split_lines_from "" s'
      else split_lines_from (cur ++ String c EmptyString) s'
  end.

Definition sample_sdf : string :=
  "<sdf version='1.9'>" ++ nl ++ "  <model name='block'>" ++ nl ++
  "  </model>" ++ nl ++ "</sdf>" ++ nl.

(** Both tools are installed and exit with status 0. *)
Definition tools_ok : Env := {|
  get_package_share_directory := fun p => "/opt/ros/share/" ++ p;
  which := fun name => Some ("/usr/bin/" ++ name);
  run_process := fun cmd _ => (0%Z, sample_sdf);
  splitlines := split_lines_from "";
  str_list := fun l => "[" ++ String.concat ", " l ++ "]";
  signal_text := fun n => "unknown signal " ++ str_int n;
  repr_float := fun q =>
    str_int (Qnum q) ++ "/" ++ NilEmpty.string_of_uint (Pos.to_uint (Qden q));
  dirname := fun s => s
|}.

(** Both tools are installed and every command exits with status 2. *)
Definition tools_fail : Env := {|
  get_package_share_directory := fun p => "/opt/ros/share/" ++ p;
  which := fun name => Some ("/usr/bin/" ++ name);
  run_process := fun cmd _ => (2%Z, "");
  splitlines := split_lines_from "";
  str_list := fun l => "[" ++ String.concat ", " l ++ "]";
  signal_text := fun n => "unknown signal " ++ str_int n;
  repr_float := fun q =>
    str_int (Qnum q) ++ "/" ++ NilEmpty.string_of_uint (Pos.to_uint (Qden q));
  dirname := fun s => s
|}.

(** The first of the spread blocks and the ones after it. *)
Definition spread_first : block := hd first_block spread_blocks.

Definition spread_rest : list block := tl spread_blocks.

Definition ok_run : outcome (list action) * state :=
  @spawn_block tools_ok 1 (init spread_draws).

Definition ok_actions : list action :=
  match fst ok_run with Ret acts => acts | _ => [] end.

(** The element that launches the simulator. *)
Definition is_simulator_bootstrap (a : action) : bool :=
  match a with IncludeLaunchDescription _ _ => true | _ => false end.

(** The element that produces the per-block spawn actions. *)
Definition is_block_spawner (a : action) : bool :=
  match a with OpaqueFunction spawn_block_function => true | _ => false end.

(** [m] changes neither the files nor the call log, whatever its outcome. *)
Definition keeps_world {A} (m : M A) : Prop :=
  forall st, same_world st (snd (m st)).





(** The commands run for one block. *)
Definition block_commands `{Env} (xacro gz : string) (b : block) : list (list string) :=
  [xacro_command xacro b; sdf_command gz b].

(** The visualizer node, which the plan holds only inside [rviz2]. *)
Definition is_visualizer (a : action) : bool :=
  match a with
  | Node n => String.eqb (n_package n) "rviz2"
  | _ => false
  end.

(** Neither tool is installed. *)
Definition tools_missing : Env := {|
  get_package_share_directory := fun p => "/opt/ros/share/" ++ p;
  which := fun name => None;
  run_process := fun cmd _ => (0%Z, sample_sdf);
  splitlines := split_lines_from "";
  str_list := fun l => "[" ++ String.concat ", " l ++ "]";
  signal_text := fun n => "unknown signal " ++ str_int n;
  repr_float := fun q =>
    str_int (Qnum q) ++ "/" ++ NilEmpty.string_of_uint (Pos.to_uint (Qden q));
  dirname := fun s => s
|}.

(** Both tools are installed; every command for block 2 exits with
    status 2, every other command with status 0. *)
Definition second_fails : Env := {|
  get_package_share_directory := fun p => "/opt/ros/share/" ++ p;
  which := fun name => Some ("/usr/bin/" ++ name);
  run_process := fun cmd _ =>
    if existsb (contains "block2") cmd || existsb (String.eqb "block_name:=2") cmd
    then (2%Z, "") else (0%Z, sample_sdf);
  splitlines := split_lines_from "";
  str_list := fun l => "[" ++ String.concat ", " l ++ "]";
  signal_text := fun n => "unknown signal " ++ str_int n;
  repr_float := fun q =>
    str_int (Qnum q) ++ "/" ++ NilEmpty.string_of_uint (Pos.to_uint (Qden q));
  dirname := fun s => s
|}.

(** The state after the first spread block has been processed with
    [second_fails], and the actions appended for it. *)
Definition first_done_run : outcome (list action) * state :=
  @build_instances second_fails [spread_first] [] (snd spread_run).

Definition first_done_actions : list action :=
  match fst first_done_run with Ret acts => acts | _ => [] end.

(** [namespace] of a node action *)
Definition namespace_of (a : action) : option string :=
  match a with
  | Node n => n_namespace n
  | _ => None
  end.



(** The distance [check_collision] computes between a new position and a
    listed one. *)
Definition computed_distance (new_pos pos : Double.block) : PrimFloat.float :=
  let dx := PrimFloat.sub (Double.float (Double.b_x new_pos))
              (Double.float (Double.b_x pos)) in
  let dy := PrimFloat.sub (Double.float (Double.b_y new_pos))
              (Double.float (Double.b_y pos)) in
  PrimFloat.sqrt (PrimFloat.add (PrimFloat.mul dx dx) (PrimFloat.mul dy dy)).

(** The rational number a finite binary64 number is. *)
Definition exact (v : PrimFloat.float) : Q :=
  match FloatOps.Prim2SF v with
  | SpecFloat.S754_finite s m e =>
      let a := if Z.leb 0 e then inject_Z (Z.pos m * 2 ^ e)
               else Z.pos m # Pos.pow 2 (Z.to_pos (- e)) in
      if s then (- a)%Q else a
  | _ => 0%Q
  end.

(** Squared planar distance between the centres of two blocks, without
    rounding. *)
Definition exact_distance2 (a b : Double.block) : Q :=
  let dx := (exact (Double.float (Double.b_x a)) - exact (Double.float (Double.b_x b)))%Q in
  let dy := (exact (Double.float (Double.b_y a)) - exact (Double.float (Double.b_y b)))%Q in
  (dx * dx + dy * dy)%Q.

(** [double_accepted existing new]: every block of [new], in order, passed
    the collision check against [existing] and the blocks of [new] before
    it. *)
Fixpoint double_accepted (existing new : list Double.block) : Prop :=
  match new with
  | [] => True
  | b :: new' =>
      Double.check_collision b existing Double.default_min_distance = false /\
      double_accepted (existing ++ [b]) new'
  end.

(** The run of the double-precision generator on [spread_draws]. *)
Definition double_spread_run : outcome (list Double.block) * state :=
  Double.generate_placements 1 (init spread_draws).

Definition double_spread_blocks : list Double.block :=
  match fst double_spread_run with Ret blocks => blocks | _ => [] end.

(** Draws that place the first block in the corner (0.0, 0.2), the second
    one at (0.09757128656955585, 0.3139291184779449), and the other two far
    from both. *)
Definition near_draws : list N :=
  [ 0; 0; 0; 0; 0; 0; 0; 0;
    0; 0; 0;
    4394220098367116; 2052364542095687; 0;
    0; 9007199254740991; 0;
    9007199254740991; 4503599627370496; 0 ]%N.

Definition near_run : outcome (list Double.block) * state :=
  Double.generate_placements 1 (init near_draws).

Definition near_blocks : list Double.block :=
  match fst near_run with Ret blocks => blocks | _ => [] end.

(** Two positions 1e-170 apart, and a minimum distance of 1e-200. *)
Module Tiny.

Import PrimFloat.

Definition position_at (x y : PrimFloat.float) : Double.block :=
  {| Double.b_number := "1";
     Double.b_type := "X1-Y1-Z2";
     Double.b_x := Double.str_float x;
     Double.b_y := Double.str_float y;
     Double.b_z := "0.88";
     Double.b_R := "0";
     Double.b_P := "0";
     Double.b_Y := Double.str_float 0;
     Double.b_color := "1.0 1.0 0.0 1" |}.

Definition origin : Double.block := position_at 0 0.

Definition close_by : Double.block := position_at 1e-170 0.

Definition min_distance : PrimFloat.float := 1e-200%float.

End Tiny.

(** The value after [flag] in the arguments of a node. *)
Fixpoint argument_after (flag : string) (arguments : list subst) : option subst :=
  match arguments with
  | [] => None
  | a :: rest =>
      match a, rest with
      | Text s, v :: _ =>
          if String.eqb s flag then Some v else argument_after flag rest
      | _, _ => argument_after flag rest
      end
  end.

Definition arguments_of (a : action) : list subst :=
  match a with
  | Node n => n_arguments n
  | _ => []
  end.

(** What the files of a block hold, given what the two tools printed for
    it. *)
Definition files_hold `{Env} (st : state) (b : block)
    (urdf_output sdf_output : string) : Prop :=
  fs st !! urdf_path b = Some urdf_output /\
  fs st !! sdf_path b
  = Some (String.concat nl (inject_plugin (splitlines sdf_output))).

(** [tool_outputs xacro gz st blocks outs]: block by block from the state
    [st], the first component of the block's pair in [outs] is what the
    xacro command of the block printed and the second what its gz command
    printed, both with exit status 0 and each run in the state that the
    commands and writes before it have left. *)
Fixpoint tool_outputs `{Env} (xacro gz : string) (st : state) (blocks : list block)
    (outs : list (string * string)) : Prop :=
  match blocks, outs with
  | [], [] => True
  | b :: blocks', (urdf_output, sdf_output) :: outs' =>
      let st1 := written (logged st (xacro_command xacro b)) (urdf_path b) urdf_output in
      let st2 := written (logged st1 (sdf_command gz b)) (sdf_path b)
                   (String.concat nl (inject_plugin (splitlines sdf_output))) in
      run_process (xacro_command xacro b) st = (0%Z, urdf_output) /\
      run_process (sdf_command gz b) st1 = (0%Z, sdf_output) /\
      tool_outputs xacro gz st2 blocks' outs'
  | _, _ => False
  end.

(** * Properties *)

Example colors5 :
  fst (generate_balanced_colors 5 (init [2; 3; 1; 0; 2]%N)) =
  Ret ["1.0 0.0 0.0 1"; "1.0 0.0 0.0 1"; "1.0 1.0 0.0 1"; "0.0 1.0 0.0 1"; "1.0 0.5 0.0 1"].
Proof. vm_compute. reflexivity. Qed.

(** ** The monad *)

Lemma bind_Ret {A B} (m : M A) (k : A -> M B) st a st1 :
  m st = (Ret a, st1) -> bind m k st = k a st1.
Proof. intros H. unfold bind. now rewrite H. Qed.

Lemma bind_Ret_inv {A B} (m : M A) (k : A -> M B) st b st2 :
  bind m k st = (Ret b, st2) ->
  exists a st1, m st = (Ret a, st1) /\ k a st1 = (Ret b, st2).
Proof.
  unfold bind. destruct (m st) as [[a | e |] st1]; intros H; try discriminate.
  now exists a, st1.
Qed.

Lemma bind_Spin {A B} (m : M A) (k : A -> M B) st st1 :
  m st = (Spin, st1) -> bind m k st = (Spin, st1).
Proof. intros H. unfold bind. now rewrite H. Qed.

Lemma bind_Raise {A B} (m : M A) (k : A -> M B) st e st1 :
  m st = (Raise e, st1) -> bind m k st = (Raise e, st1).
Proof. intros H. unfold bind. now rewrite H. Qed.

Lemma bind_assoc {A B C} (m : M A) (f : A -> M B) (g : B -> M C) st :
  bind (bind m f) g st = bind m (fun a => bind (f a) g) st.
Proof. unfold bind. now destruct (m st) as [[a | e |] st1]. Qed.

Lemma bind_ext {A B} (m : M A) (f g : A -> M B) st :
  (forall a st1, f a st1 = g a st1) -> bind m f st = bind m g st.
Proof. intros Hfg. unfold bind. destruct (m st) as [[a | e |] st1]; auto. Qed.

Lemma getitem_Some {A} (l : list A) i a st :
  l !! i = Some a -> getitem l i st = (Ret a, st).
Proof. intros H. unfold getitem. now rewrite H. Qed.

Lemma getitem_Ret_inv {A} (l : list A) i a st st' :
  getitem l i st = (Ret a, st') -> l !! i = Some a /\ st' = st.
Proof.
  unfold getitem. destruct (l !! i); cbn; intros H; inversion H; auto.
Qed.

Lemma same_world_refl st : same_world st st.
Proof. now split. Qed.

Lemma same_world_trans st1 st2 st3 :
  same_world st1 st2 -> same_world st2 st3 -> same_world st1 st3.
Proof. intros [? ?] [? ?]. split; congruence. Qed.

Lemma same_world_advance st : same_world st (advance st).
Proof. now split. Qed.

Create HintDb world.

#[local] Hint Resolve same_world_refl same_world_advance : world.

(** ** random.sample and random.shuffle *)

(** One round of the pool: the picked element together with the shrunk
    pool is the pool before the round. *)
Lemma pool_round {A} (pool : list A) m j picked filler :
  (j < m)%nat -> (m <= length pool)%nat ->
  pool !! j = Some picked -> pool !! (m - 1)%nat = Some filler ->
  Permutation (take m pool) (picked :: take (m - 1) (<[j := filler]> pool)).
Proof.
  intros Hj Hm Hp Hf.
  assert (Hm1 : take m pool = (take (m - 1) pool ++ [filler])%list).
  { replace m with (S (m - 1)) at 1 by lia. now apply take_S_r. }
  rewrite Hm1.
  destruct (decide (j = m - 1)%nat) as [-> | Hne].
  - rewrite take_insert_ge by lia.
    assert (picked = filler) by congruence. subst.
    symmetry. apply Permutation_cons_append.
  - rewrite take_insert_lt by lia.
    set (l := take (m - 1) pool).
    assert (Hl : l !! j = Some picked).
    { unfold l. apply lookup_take_Some. split; [assumption | lia]. }
    rewrite insert_take_drop by (apply lookup_lt_Some in Hl; assumption).
    rewrite <- (take_drop_middle l j picked Hl) at 1.
    rewrite <- app_assoc. cbn.
    rewrite <- Permutation_middle. apply perm_skip.
    apply Permutation_app_head. symmetry. apply Permutation_cons_append.
Qed.

Lemma sample_loop_spec {A} (r : nat) :
  forall (i n : nat) (pool : list A) st,
    length pool = n -> (r + i <= n)%nat ->
    exists res rest st',
      sample_loop r i n pool st = (Ret res, st') /\
      length res = r /\
      Permutation (take (n - i) pool) (res ++ rest) /\
      same_world st st'.
Proof.
  induction r as [| r IH]; intros i n pool st Hlen Hr.
  - exists [], (take (n - i) pool), st. cbn. auto with world.
  - cbn [sample_loop].
    set (j := N.to_nat (rng st 0%nat mod N.of_nat (n - i))%N).
    assert (Hj : (j < n - i)%nat).
    { unfold j. pose proof (N.mod_upper_bound (rng st 0%nat) (N.of_nat (n - i))).
      lia. }
    destruct (lookup_lt_is_Some_2 pool j) as [picked Hp]; [lia |].
    destruct (lookup_lt_is_Some_2 pool (n - i - 1)) as [filler Hf]; [lia |].
    destruct (IH (S i) n (<[j := filler]> pool) (advance st)) as
      (res & rest & st' & Hrun & Hres & Hperm & Hw);
      [rewrite length_insert; assumption | lia |].
    exists (picked :: res), rest, st'. repeat split.
    + unfold randbelow. unfold bind at 1. fold j.
      rewrite (bind_Ret _ _ _ _ _ (getitem_Some pool j picked _ Hp)).
      rewrite (bind_Ret _ _ _ _ _ (getitem_Some pool _ filler _ Hf)).
      rewrite (bind_Ret _ _ _ _ _ Hrun). reflexivity.
    + cbn. now rewrite Hres.
    + cbn. rewrite <- Hperm.
      replace (n - S i)%nat with (n - i - 1)%nat by lia.
      apply pool_round; [assumption | lia | assumption | assumption].
    + apply Hw.
    + apply Hw.
Qed.

Lemma sample_spec {A} (population : list A) (k : Z) st :
  (0 <= k <= Z.of_nat (length population))%Z ->
  exists res rest st',
    sample population k st = (Ret res, st') /\
    length res = Z.to_nat k /\
    Permutation population (res ++ rest) /\
    same_world st st'.
Proof.
  intros Hk. unfold sample.
  replace ((k <? 0)%Z || (Z.of_nat (length population) <? k)%Z) with false
    by (symmetry; apply orb_false_intro; [apply Z.ltb_ge | apply Z.ltb_ge]; lia).
  destruct (sample_loop_spec (Z.to_nat k) 0 (length population) population st)
    as (res & rest & st' & Hrun & Hlen & Hperm & Hw); [reflexivity | lia |].
  exists res, rest, st'. repeat split; try assumption; try apply Hw.
  rewrite Nat.sub_0_r, firstn_all in Hperm. exact Hperm.
Qed.

Lemma shuffle_loop_spec {A} (i : nat) :
  forall (x : list A) st,
    (i < length x \/ i = 0)%nat ->
    exists res st',
      shuffle_loop i x st = (Ret res, st') /\
      Permutation x res /\
      same_world st st'.
Proof.
  induction i as [| i IH]; intros x st Hi.
  - exists x, st. cbn. auto with world.
  - cbn [shuffle_loop].
    set (j := N.to_nat (rng st 0%nat mod N.of_nat (S i + 1))%N).
    assert (Hj : (j < S i + 1)%nat).
    { unfold j. pose proof (N.mod_upper_bound (rng st 0%nat) (N.of_nat (S i + 1))).
      lia. }
    destruct (lookup_lt_is_Some_2 x (S i)) as [xi Hxi]; [lia |].
    destruct (lookup_lt_is_Some_2 x j) as [xj Hxj]; [lia |].
    destruct (IH (<[j := xi]> (<[S i := xj]> x)) (advance st))
      as (res & st' & Hrun & Hperm & Hw).
    { rewrite !length_insert. lia. }
    exists res, st'. repeat split.
    + unfold randbelow. unfold bind at 1. fold j.
      rewrite (bind_Ret _ _ _ _ _ (getitem_Some x _ xi _ Hxi)).
      rewrite (bind_Ret _ _ _ _ _ (getitem_Some x _ xj _ Hxj)).
      exact Hrun.
    + rewrite <- Hperm. symmetry. now apply Permutation_insert_swap.
    + apply Hw.
    + apply Hw.
Qed.

Lemma shuffle_spec {A} (x : list A) st :
  exists res st',
    shuffle x st = (Ret res, st') /\ Permutation x res /\ same_world st st'.
Proof.
  apply shuffle_loop_spec. destruct x; cbn; lia.
Qed.

(** ** generate_balanced_colors *)

Lemma NoDup_colors : NoDup colors.
Proof. apply NoDup_ListNoDup. repeat constructor; cbn; intuition discriminate. Qed.

Lemma count_occ_list_mul (l : list string) (k : nat) (c : string) :
  count_occ string_dec (concat (replicate k l)) c
  = (k * count_occ string_dec l c)%nat.
Proof.
  induction k as [| k IH]; cbn; [reflexivity |].
  now rewrite count_occ_app, IH.
Qed.

Lemma length_list_mul {A} (l : list A) (k : nat) :
  length (concat (replicate k l)) = (k * length l)%nat.
Proof.
  induction k as [| k IH]; cbn; [reflexivity |].
  now rewrite length_app, IH.
Qed.

Lemma list_sum_indicator (P : list string) (a : string) (f : string -> nat) :
  list_sum (map (fun c => if string_dec a c then S (f c) else f c) P)
  = (count_occ string_dec P a + list_sum (map f P))%nat.
Proof.
  induction P as [| p P IH]; [reflexivity |].
  rewrite !map_cons. cbn [count_occ].
  change (list_sum (?x :: ?l)) with (x + list_sum l)%nat.
  rewrite IH. destruct (string_dec a p), (string_dec p a); subst; try congruence; lia.
Qed.

(** Over a duplicate-free palette the per-colour counts of a list drawn
    from it add up to its length. *)
Lemma count_occ_total (P l : list string) :
  List.NoDup P -> incl l P ->
  list_sum (map (fun c => count_occ string_dec l c) P) = length l.
Proof.
  intros HP. induction l as [| a l IH]; intros Hincl.
  - cbn [count_occ length]. clear HP Hincl.
    induction P as [| p P IHP]; [reflexivity | exact IHP].
  - cbn [count_occ length].
    rewrite (list_sum_indicator P a (fun c => count_occ string_dec l c)).
    rewrite IH by (intros x Hx; apply Hincl; now right).
    assert (Ha : List.In a P) by (apply Hincl; now left).
    pose proof (proj1 (NoDup_count_occ string_dec P) HP a) as Hle.
    pose proof (proj1 (count_occ_In string_dec P a) Ha). lia.
Qed.

(** The result of [generate_balanced_colors], for every source of draws;
    no file is touched. *)
Lemma generate_balanced_colors_spec (N : Z) (st : state) :
  (0 <= N)%Z ->
  exists (result extra : list string) (st' : state),
    generate_balanced_colors N st = (Ret result, st') /\
    Z.of_nat (length result) = N /\
    incl result colors /\
    (forall c, List.In c colors ->
       count c result = (N / 4)%Z \/ count c result = (N / 4 + 1)%Z) /\
    Z.of_nat (list_sum (map (fun c => count_occ string_dec result c) colors)) = N /\
    List.NoDup extra /\ incl extra colors /\
    Z.of_nat (length extra) = (N mod 4)%Z /\
    Permutation (list_mul colors (N / 4) ++ extra) result /\
    same_world st st'.
Proof.
  intros HN. unfold generate_balanced_colors.
  change (Z.of_nat (length colors)) with 4%Z.
  pose proof (Z.mod_pos_bound N 4 ltac:(lia)) as Hmod.
  pose proof (Z.div_mod N 4 ltac:(lia)) as Hdm.
  assert (Hdiv : (0 <= N / 4)%Z) by (apply Z.div_pos; lia).
  (* the colours appended after the full rounds *)
  assert (Hextra : exists extra st1,
    (if (N mod 4 =? 0)%Z then ret (list_mul colors (N / 4))
     else bind (sample colors (N mod 4))
            (fun extra => ret (list_mul colors (N / 4) ++ extra)%list)) st
    = (Ret (list_mul colors (N / 4) ++ extra)%list, st1) /\
    List.NoDup extra /\ incl extra colors /\
    Z.of_nat (length extra) = (N mod 4)%Z /\ same_world st st1).
  { destruct (N mod 4 =? 0)%Z eqn:E.
    - apply Z.eqb_eq in E. exists [], st. rewrite app_nil_r, E.
      repeat split; [constructor | intros x [] ].
    - destruct (sample_spec colors (N mod 4) st) as
        (res & rest & st1 & Hrun & Hlen & Hperm & Hw); [cbn; lia |].
      exists res, st1. rewrite (bind_Ret _ _ _ _ _ Hrun).
      assert (Hnd : List.NoDup (res ++ rest)).
      { apply (Permutation_NoDup Hperm). apply NoDup_ListNoDup, NoDup_colors. }
      repeat split.
      + now apply List.NoDup_app_remove_r in Hnd.
      + intros x Hx. apply (Permutation_in x (Permutation_sym Hperm)).
        apply in_or_app. now left.
      + rewrite Hlen. lia.
      + apply Hw.
      + apply Hw. }
  destruct Hextra as (extra & st1 & Hrun1 & Hnd & Hincl & Hlen & Hw1).
  destruct (shuffle_spec (list_mul colors (N / 4) ++ extra)%list st1)
    as (result & st' & Hrun2 & Hperm & Hw2).
  exists result, extra, st'.
  assert (Hin : incl result colors).
  { intros x Hx. apply (Permutation_in x (Permutation_sym Hperm)) in Hx.
    apply in_app_or in Hx. destruct Hx as [Hx | Hx]; [| now apply Hincl].
    unfold list_mul in Hx. apply in_concat in Hx. destruct Hx as (l & Hl & Hx).
    apply list_elem_of_In, elem_of_replicate in Hl. destruct Hl as [-> _].
    exact Hx. }
  assert (Hlenres : Z.of_nat (length result) = N).
  { rewrite <- (Permutation_length Hperm), length_app.
    unfold list_mul. rewrite length_list_mul. change (length colors) with 4%nat.
    lia. }
  repeat split; try assumption.
  - rewrite (bind_Ret _ _ _ _ _ Hrun1). exact Hrun2.
  - intros c Hc. unfold count.
    rewrite <- (proj1 (Permutation_count_occ string_dec _ _) Hperm c), count_occ_app.
    unfold list_mul. rewrite count_occ_list_mul.
    assert (count_occ string_dec colors c = 1%nat) as ->.
    { pose proof (proj1 (NoDup_count_occ string_dec colors)
                    (proj1 (NoDup_ListNoDup _) NoDup_colors) c).
      pose proof (proj1 (count_occ_In string_dec colors c) Hc). lia. }
    pose proof (proj1 (NoDup_count_occ string_dec extra) Hnd c). lia.
  - rewrite count_occ_total; [exact Hlenres | | exact Hin].
    apply NoDup_ListNoDup, NoDup_colors.
  - apply (same_world_trans _ _ _ Hw1 Hw2).
  - apply (same_world_trans _ _ _ Hw1 Hw2).
Qed.

(** C3. For every count N >= 0, [generate_balanced_colors] returns
    (without raising) a list of exactly N labels, all from the four-colour
    palette; every palette colour occurs N/4 or N/4 + 1 times and the four
    counts add up to N; the list is a permutation of N/4 copies of the
    palette followed by N mod 4 pairwise different palette colours, the
    ones [random.sample] drew without replacement. *)
Theorem generate_balanced_colors_balanced (N : Z) (st : state) :
  (0 <= N)%Z ->
  exists (result extra : list string) (st' : state),
    generate_balanced_colors N st = (Ret result, st') /\
    Z.of_nat (length result) = N /\
    incl result colors /\
    (forall c, List.In c colors ->
       count c result = (N / 4)%Z \/ count c result = (N / 4 + 1)%Z) /\
    Z.of_nat (list_sum (map (fun c => count_occ string_dec result c) colors)) = N /\
    List.NoDup extra /\ incl extra colors /\
    Z.of_nat (length extra) = (N mod 4)%Z /\
    Permutation (list_mul colors (N / 4) ++ extra) result.
Proof.
  intros HN.
  destruct (generate_balanced_colors_spec N st HN)
    as (result & extra & st' & H1 & H2 & H3 & H4 & H5 & H6 & H7 & H8 & H9 & _).
  exists result, extra, st'. tauto.
Qed.

(** Five labels from any source of draws. *)
Lemma generate_balanced_colors_balanced_witness :
  (0 <= 5)%Z /\
  exists (result extra : list string) (st' : state),
    generate_balanced_colors 5 (init [2; 3; 1; 0; 2]%N) = (Ret result, st') /\
    Z.of_nat (length result) = 5%Z /\
    incl result colors /\
    (forall c, List.In c colors ->
       count c result = (5 / 4)%Z \/ count c result = (5 / 4 + 1)%Z) /\
    Z.of_nat (list_sum (map (fun c => count_occ string_dec result c) colors)) = 5%Z /\
    List.NoDup extra /\ incl extra colors /\
    Z.of_nat (length extra) = (5 mod 4)%Z /\
    Permutation (list_mul colors (5 / 4) ++ extra) result.
Proof.
  split; [lia |].
  apply (generate_balanced_colors_balanced 5 (init [2; 3; 1; 0; 2]%N)). lia.
Defined.

(** ** The placement generator *)

Lemma unit_draw_range st : (0 <= unit_draw st)%Q /\ (unit_draw st < 1)%Q.
Proof.
  unfold unit_draw, Qle, Qlt. cbn [Qnum Qden].
  pose proof (N.mod_upper_bound (rng st 0%nat) two53 ltac:(discriminate)) as H.
  unfold two53 in *.
  set (m := (rng st 0%nat mod 9007199254740992)%N) in *. clearbody m. lia.
Qed.

Lemma candidate_eq i selected_types colors ty color st :
  selected_types !! i = Some ty -> colors !! i = Some color ->
  candidate i selected_types colors st =
  (Ret (new_pos_of i ty color (unit_draw st) (unit_draw (skip 1 st))
          (unit_draw (skip 2 st))),
   skip 3 st).
Proof.
  intros Hty Hc. unfold candidate, generate_random_rotation, uniform, random, bind, ret.
  cbn. rewrite (getitem_Some _ _ _ _ Hty). rewrite (getitem_Some _ _ _ _ Hc).
  reflexivity.
Qed.

Lemma new_pos_of_is_candidate i selected_types colors ty color r1 r2 r3 :
  selected_types !! i = Some ty -> colors !! i = Some color ->
  (0 <= r1)%Q /\ (r1 < 1)%Q -> (0 <= r2)%Q /\ (r2 < 1)%Q ->
  (0 <= r3)%Q /\ (r3 < 1)%Q ->
  is_candidate i selected_types colors (new_pos_of i ty color r1 r2 r3).
Proof.
  intros Hty Hc [H1 H1'] [H2 H2'] [H3 H3'].
  constructor; cbn; try reflexivity; try assumption.
  - eexists. split; [reflexivity |]. split; lra.
  - eexists. split; [reflexivity |]. split; lra.
  - unfold math_pi. split; lra.
Qed.


Lemma same_world_skip k st : same_world st (skip k st).
Proof.
  induction k as [| k IH]; [apply same_world_refl |].
  eapply same_world_trans; [exact IH |]. apply same_world_advance.
Qed.


Lemma pass0_is_candidate i selected_types colors ty color st :
  selected_types !! i = Some ty -> colors !! i = Some color ->
  is_candidate i selected_types colors (pass0 i ty color st).
Proof.
  intros. apply new_pos_of_is_candidate; auto using unit_draw_range.
Qed.

Section Place.

Variables (i : nat) (selected_types colors : list string) (ty color : string).
Variable existing_positions : list block.
Hypothesis Hty : selected_types !! i = Some ty.
Hypothesis Hcolor : colors !! i = Some color.

Lemma place_S fuel st :
  place (S fuel) i selected_types colors existing_positions st =
  if negb (check_collision (pass0 i ty color st) existing_positions default_min_distance)
  then (Ret (pass0 i ty color st), skip 3 st)
  else place fuel i selected_types colors existing_positions (skip 3 st).
Proof.
  cbn [place]. unfold bind at 1.
  rewrite (candidate_eq i selected_types colors ty color st Hty Hcolor).
  fold (pass0 i ty color st).
  now destruct (check_collision (pass0 i ty color st) existing_positions _).
Qed.

(** The loop leaves with a candidate that passed the check, or it is still
    running when the fuel is used up; it does not raise. *)
Lemma place_outcome fuel : forall st,
  (exists b st',
      place fuel i selected_types colors existing_positions st = (Ret b, st') /\
      is_candidate i selected_types colors b /\
      check_collision b existing_positions default_min_distance = false /\
      same_world st st')
  \/ (exists st',
      place fuel i selected_types colors existing_positions st = (Spin, st')).
Proof.
  induction fuel as [| fuel IH]; intros st.
  - right. now exists st.
  - rewrite place_S.
    destruct (check_collision (pass0 i ty color st) existing_positions _) eqn:E; cbn [negb].
    + destruct (IH (skip 3 st)) as [(b & st' & Hrun & Hc & Hcol & Hw) | [st' Hrun]].
      * left. exists b, st'. split; [assumption |]. split; [assumption |].
        split; [assumption |].
        apply (same_world_trans _ _ _ (same_world_skip 3 st) Hw).
      * right. now exists st'.
    + left. exists (pass0 i ty color st), (skip 3 st).
      split; [reflexivity |]. split; [now apply pass0_is_candidate |].
      split; [assumption | apply same_world_skip].
Qed.


End Place.

Lemma place_all_outcome fuel indices :
  forall selected_types colors existing_positions blocks_config st,
    Forall (fun i => is_Some (selected_types !! i) /\ is_Some (colors !! i)) indices ->
    (exists new st',
        place_all fuel indices selected_types colors existing_positions
          blocks_config st
        = (Ret ((existing_positions ++ new)%list, (blocks_config ++ new)%list), st') /\
        Forall2 (fun i b => is_candidate i selected_types colors b) indices new /\
        accepted existing_positions new /\
        same_world st st')
    \/ (exists st',
        place_all fuel indices selected_types colors existing_positions
          blocks_config st = (Spin, st')).
Proof.
  induction indices as [| i indices IH]; intros sel cols ex bc st Hidx.
  - left. exists [], st. rewrite !app_nil_r. cbn.
    split; [reflexivity |]. split; [constructor |]. split; [exact I |].
    apply same_world_refl.
  - inversion Hidx as [| ? ? [[ty Hty] [color Hcolor]] Hrest]; subst.
    cbn [place_all].
    destruct (place_outcome i sel cols ty color ex Hty Hcolor fuel st)
      as [(b & st1 & Hrun & Hcand & Hfree & Hw1) | [st1 Hrun]].
    + rewrite (bind_Ret _ _ _ _ _ Hrun).
      destruct (IH sel cols (ex ++ [b])%list (bc ++ [b])%list st1 Hrest)
        as [(new & st' & Hrun' & Hall & Hacc & Hw2) | [st' Hrun']].
      * left. exists (b :: new), st'.
        rewrite Hrun', <- !app_assoc. cbn.
        split; [reflexivity |]. split; [now constructor |].
        split; [now split |]. apply (same_world_trans _ _ _ Hw1 Hw2).
      * right. now exists st'.
    + right. exists st1. now rewrite (bind_Spin _ _ _ _ Hrun).
Qed.

Lemma NoDup_block_types : List.NoDup block_types.
Proof. apply NoDup_ListNoDup. apply (bool_decide_unpack _). vm_compute. reflexivity. Qed.

Lemma randint_4_5 st :
  exists num_blocks : Z,
    randint 4 5 st = (Ret num_blocks, advance st) /\
    (num_blocks = 4 \/ num_blocks = 5)%Z.
Proof.
  unfold randint. cbn. unfold bind, randbelow, ret.
  exists (4 + Z.of_N (rng st 0%nat mod 2))%Z. split; [reflexivity |].
  pose proof (N.mod_upper_bound (rng st 0%nat) 2 ltac:(discriminate)).
  set (m := (rng st 0%nat mod 2)%N) in *. clearbody m. lia.
Qed.

(** The generator returns a generated set or it is still sampling when the
    fuel is used up; it does not raise and touches no file. *)
Lemma generate_placements_outcome fuel st :
  (exists blocks st',
      generate_placements fuel st = (Ret blocks, st') /\
      generated blocks /\ same_world st st')
  \/ (exists st', generate_placements fuel st = (Spin, st')).
Proof.
  unfold generate_placements.
  destruct (randint_4_5 st) as (K & HrunK & HK).
  rewrite (bind_Ret _ _ _ _ _ HrunK).
  destruct (sample_spec block_types K (advance st))
    as (sel & rest & st1 & Hrun1 & Hlen1 & Hperm & Hw1); [cbn; lia |].
  rewrite (bind_Ret _ _ _ _ _ Hrun1).
  destruct (generate_balanced_colors_spec K st1 ltac:(lia))
    as (cols & extra & st2 & Hrun2 & Hlen2 & _ & _ & _ & _ & _ & _ & _ & Hw2).
  rewrite (bind_Ret _ _ _ _ _ Hrun2).
  assert (Hnd : List.NoDup (sel ++ rest)).
  { apply (Permutation_NoDup Hperm). exact NoDup_block_types. }
  assert (Hidx : Forall (fun i => is_Some (sel !! i) /\ is_Some (cols !! i)) (range K)).
  { apply Forall_forall. intros i Hi. unfold range in Hi.
    apply list_elem_of_In, in_seq in Hi.
    split; apply lookup_lt_is_Some_2; lia. }
  destruct (place_all_outcome fuel (range K) sel cols [] [] st2 Hidx)
    as [(new & st' & Hrun & Hall & Hacc & Hw3) | [st' Hrun]].
  - left. exists new, st'. rewrite (bind_Ret _ _ _ _ _ Hrun). cbn.
    split; [reflexivity |]. split.
    + exists K, sel, cols. split; [exact HK |].
      split; [now apply List.NoDup_app_remove_r in Hnd |].
      split.
      { intros x Hx. apply (Permutation_in x (Permutation_sym Hperm)).
        apply in_or_app. now left. }
      split; [exact Hlen1 |]. split; [lia |]. split; assumption.
    + eapply same_world_trans; [apply same_world_advance |].
      eapply same_world_trans; [exact Hw1 |].
      eapply same_world_trans; [exact Hw2 | exact Hw3].
  - right. exists st'. now rewrite (bind_Spin _ _ _ _ Hrun).
Qed.

Lemma generate_placements_Ret fuel st blocks st' :
  generate_placements fuel st = (Ret blocks, st') ->
  generated blocks /\ same_world st st'.
Proof.
  intros Hrun.
  destruct (generate_placements_outcome fuel st)
    as [(blocks0 & st0 & Hrun0 & Hgen & Hw) | [st0 Hrun0]]; [| congruence].
  assert (blocks0 = blocks) by congruence.
  assert (st0 = st') by congruence. now subst.
Qed.

Lemma Qltb_false a b : Qltb a b = false -> (b <= a)%Q.
Proof.
  unfold Qltb. intros H. apply negb_false_iff in H. now apply Qle_bool_iff.
Qed.

Lemma Qltb_true a b : Qltb a b = true -> (a < b)%Q.
Proof.
  unfold Qltb. intros H. apply negb_true_iff in H.
  apply Qnot_le_lt. intros Hle. apply Qle_bool_iff in Hle. congruence.
Qed.

(** Without rounding, [sqrt_ltb] decides the comparison the source makes
    on the square root. *)
Lemma sqrt_ltb_spec (s d : Q) :
  (0 <= s)%Q -> (sqrt_ltb s d = true <-> (sqrt (Q2R s) < Q2R d)%R).
Proof.
  intros Hs. apply Qle_Rle in Hs. rewrite RMicromega.Q2R_0 in Hs.
  unfold sqrt_ltb. rewrite andb_true_iff. split.
  - intros [Hd Hsd]. apply Qltb_true in Hd, Hsd.
    apply Qlt_Rlt in Hd, Hsd. rewrite RMicromega.Q2R_0 in Hd. rewrite Q2R_mult in Hsd.
    rewrite <- (sqrt_square (Q2R d)) by Lra.lra.
    apply sqrt_lt_1_alt. Lra.lra.
  - intros Hlt.
    pose proof (sqrt_pos (Q2R s)) as Hpos.
    assert (Hd : (0 < Q2R d)%R) by Lra.lra.
    split.
    + unfold Qltb. apply negb_true_iff. destruct (Qle_bool d 0) eqn:E; [| reflexivity].
      apply Qle_bool_iff, Qle_Rle in E. rewrite RMicromega.Q2R_0 in E. Lra.lra.
    + unfold Qltb. apply negb_true_iff.
      destruct (Qle_bool (d * d) s) eqn:E; [| reflexivity].
      apply Qle_bool_iff, Qle_Rle in E. rewrite Q2R_mult in E.
      apply sqrt_le_1_alt in E. rewrite sqrt_square in E by Lra.lra. Lra.lra.
Qed.

Lemma generated_length blocks :
  generated blocks -> length blocks = 4%nat \/ length blocks = 5%nat.
Proof.
  intros (K & sel & cols & HK & _ & _ & _ & _ & Hall & _).
  apply Forall2_length in Hall. unfold range in Hall. rewrite length_seq in Hall.
  lia.
Qed.

Lemma candidates_types (selected_types cols : list string) n :
  forall s blocks,
    Forall2 (fun i b => is_candidate i selected_types cols b) (seq s n) blocks ->
    map b_type blocks = take n (drop s selected_types).
Proof.
  induction n as [| n IH]; intros s blocks Hall; cbn in Hall.
  - inversion Hall. reflexivity.
  - inversion Hall as [| i b idxs bs Hc Hrest]; subst. cbn [map].
    rewrite (IH _ _ Hrest).
    pose proof (cand_type _ _ _ _ Hc) as Hty.
    rewrite (drop_S _ _ _ Hty). reflexivity.
Qed.

Lemma generated_types blocks :
  generated blocks ->
  List.NoDup (map b_type blocks) /\ incl (map b_type blocks) block_types.
Proof.
  intros (K & sel & cols & HK & Hnd & Hincl & Hlen & _ & Hall & _).
  unfold range in Hall. rewrite (candidates_types _ _ _ _ _ Hall).
  rewrite drop_0, <- Hlen, firstn_all. now split.
Qed.

Lemma spread_run_returns :
  generate_placements 1 (init spread_draws) = (Ret spread_blocks, snd spread_run).
Proof. vm_compute. reflexivity. Qed.

(** ** The distance between accepted blocks, in double precision *)

Lemma double_check_collision_existsb new_pos existing min_distance :
  Double.check_collision new_pos existing min_distance =
  existsb (fun pos => PrimFloat.ltb (computed_distance new_pos pos) min_distance)
    existing.
Proof.
  induction existing as [| pos rest IH]; [reflexivity |].
  cbn [Double.check_collision existsb]. fold (computed_distance new_pos pos).
  rewrite IH. now destruct (PrimFloat.ltb _ _).
Qed.

(** The loop for one block leaves only with a candidate that passed the
    check. *)
Lemma double_place_Ret i selected_types colors existing_positions fuel :
  forall st b st',
    Double.place fuel i selected_types colors existing_positions st = (Ret b, st') ->
    Double.check_collision b existing_positions Double.default_min_distance = false.
Proof.
  induction fuel as [| fuel IH]; intros st b st' Hrun; [discriminate |].
  cbn [Double.place] in Hrun.
  apply bind_Ret_inv in Hrun. destruct Hrun as (c & st1 & _ & Hrun).
  destruct (Double.check_collision c existing_positions _) eqn:E; cbn [negb] in Hrun.
  - exact (IH _ _ _ Hrun).
  - inversion Hrun; subst. exact E.
Qed.

Lemma double_place_all_Ret fuel indices :
  forall selected_types colors existing_positions blocks_config st r st',
    Double.place_all fuel indices selected_types colors existing_positions
      blocks_config st = (Ret r, st') ->
    exists new,
      r = ((existing_positions ++ new)%list, (blocks_config ++ new)%list) /\
      double_accepted existing_positions new.
Proof.
  induction indices as [| i indices IH]; intros sel cols ex bc st r st' Hrun.
  - cbn in Hrun. inversion Hrun; subst. exists []. now rewrite !app_nil_r.
  - cbn [Double.place_all] in Hrun.
    apply bind_Ret_inv in Hrun. destruct Hrun as (b & st1 & Hb & Hrun).
    apply double_place_Ret in Hb.
    destruct (IH _ _ _ _ _ _ _ Hrun) as (new & -> & Hacc).
    exists (b :: new). rewrite <- !app_assoc. now split.
Qed.

Lemma double_generate_placements_Ret fuel st blocks st' :
  Double.generate_placements fuel st = (Ret blocks, st') ->
  double_accepted [] blocks.
Proof.
  unfold Double.generate_placements. intros Hrun.
  apply bind_Ret_inv in Hrun. destruct Hrun as (K & st1 & _ & Hrun).
  apply bind_Ret_inv in Hrun. destruct Hrun as (sel & st2 & _ & Hrun).
  apply bind_Ret_inv in Hrun. destruct Hrun as (cols & st3 & _ & Hrun).
  apply bind_Ret_inv in Hrun. destruct Hrun as (r & st4 & Hall & Hrun).
  destruct (double_place_all_Ret _ _ _ _ _ _ _ _ _ Hall) as (new & -> & Hacc).
  inversion Hrun; subst. exact Hacc.
Qed.

Lemma double_accepted_lookup new : forall existing j b,
  double_accepted existing new -> new !! j = Some b ->
  Double.check_collision b (existing ++ take j new) Double.default_min_distance = false.
Proof.
  induction new as [| c new IH]; intros ex j b Hacc Hj; [discriminate |].
  destruct Hacc as [Hc Hacc]. destruct j as [| j]; cbn in Hj.
  - inversion Hj; subst. cbn. now rewrite app_nil_r.
  - cbn [take]. specialize (IH _ _ _ Hacc Hj).
    now rewrite <- app_assoc in IH.
Qed.

Lemma double_spread_run_returns :
  Double.generate_placements 1 (init spread_draws)
  = (Ret double_spread_blocks, snd double_spread_run).
Proof. vm_compute. reflexivity. Qed.

Lemma near_run_returns :
  Double.generate_placements 1 (init near_draws) = (Ret near_blocks, snd near_run).
Proof. vm_compute. reflexivity. Qed.

(** C1, as stated, fails: the exact distance between two accepted blocks
    can be below 0.15. With the draws [near_draws] the generator returns
    four blocks; for the second one [check_collision] computes, against the
    first, the distance 0.15 itself, which is not below the threshold,
    while the exact sum dx*dx + dy*dy of the two centres is below
    0.15 * 0.15, and below the square of the binary64 number that 0.15
    denotes: their Euclidean distance is below 0.15. *)
Lemma exact_distance_below_min_distance :
  exists blocks st' a b,
    Double.generate_placements 1 (init near_draws) = (Ret blocks, st') /\
    blocks !! 0%nat = Some a /\ blocks !! 1%nat = Some b /\
    computed_distance b a = Double.default_min_distance /\
    (exact_distance2 b a < 0.15 * 0.15)%Q /\
    (exact_distance2 b a
     < exact Double.default_min_distance * exact Double.default_min_distance)%Q /\
    (sqrt (Q2R (exact_distance2 b a)) < Q2R 0.15)%R.
Proof.
  exists near_blocks, (snd near_run),
    (nth 0 near_blocks (Double.mkBlock "" "" (Double.str_float PrimFloat.zero)
                          (Double.str_float PrimFloat.zero) "" "" ""
                          (Double.str_float PrimFloat.zero) "")),
    (nth 1 near_blocks (Double.mkBlock "" "" (Double.str_float PrimFloat.zero)
                          (Double.str_float PrimFloat.zero) "" "" ""
                          (Double.str_float PrimFloat.zero) "")).
  split; [exact near_run_returns |].
  split; [vm_compute; reflexivity |]. split; [vm_compute; reflexivity |].
  split; [vm_compute; reflexivity |].
  split; [vm_compute; reflexivity |]. split; [vm_compute; reflexivity |].
  apply sqrt_ltb_spec; [vm_compute; discriminate | vm_compute; reflexivity].
Qed.

(** C1, amended. In every list the placement generator returns, each
    block passed [check_collision] against exactly the blocks accepted
    before it: for any two blocks of the list, the distance that
    [check_collision] computes in double precision from the later one to
    the earlier one, sqrt (dx*dx + dy*dy) with every operation rounded, is
    not below the binary64 number 0.15. *)
Theorem placements_keep_computed_distance fuel st blocks st' :
  Double.generate_placements fuel st = (Ret blocks, st') ->
  (forall j b, blocks !! j = Some b ->
     Double.check_collision b (take j blocks) Double.default_min_distance = false) /\
  (forall i j a b, (i < j)%nat -> blocks !! i = Some a -> blocks !! j = Some b ->
     PrimFloat.ltb (computed_distance b a) Double.default_min_distance = false).
Proof.
  intros Hrun.
  pose proof (double_generate_placements_Ret fuel st blocks st' Hrun) as Hacc.
  split.
  - intros j b Hb. exact (double_accepted_lookup blocks [] j b Hacc Hb).
  - intros i j a b Hij Ha Hb.
    pose proof (double_accepted_lookup blocks [] j b Hacc Hb) as Hchk. cbn [app] in Hchk.
    rewrite double_check_collision_existsb in Hchk.
    destruct (PrimFloat.ltb (computed_distance b a) _) eqn:E; [| reflexivity].
    rewrite <- Hchk. symmetry. apply existsb_exists. exists a. split; [| exact E].
    apply list_elem_of_In, list_elem_of_lookup. exists i.
    apply lookup_take_Some. now split.
Qed.

Lemma placements_keep_computed_distance_witness :
  Double.generate_placements 1 (init spread_draws)
    = (Ret double_spread_blocks, snd double_spread_run) /\
  (forall j b, double_spread_blocks !! j = Some b ->
     Double.check_collision b (take j double_spread_blocks)
       Double.default_min_distance = false) /\
  (forall i j a b, (i < j)%nat ->
     double_spread_blocks !! i = Some a -> double_spread_blocks !! j = Some b ->
     PrimFloat.ltb (computed_distance b a) Double.default_min_distance = false).
Proof.
  split; [exact double_spread_run_returns |].
  exact (placements_keep_computed_distance 1 (init spread_draws) double_spread_blocks
           (snd double_spread_run) double_spread_run_returns).
Defined.

(** C4. Every list the placement generator returns has 4 or 5 blocks, and
    their types are pairwise different names of the nine-entry catalog. *)
Theorem placements_distinct_types fuel st blocks st' :
  generate_placements fuel st = (Ret blocks, st') ->
  (length blocks = 4%nat \/ length blocks = 5%nat) /\
  List.NoDup (map b_type blocks) /\
  incl (map b_type blocks) block_types /\
  length block_types = 9%nat.
Proof.
  intros Hrun.
  destruct (generate_placements_Ret fuel st blocks st' Hrun) as [Hgen _].
  split; [now apply generated_length |].
  destruct (generated_types blocks Hgen) as [Hnd Hincl].
  repeat split; assumption.
Qed.

Lemma placements_distinct_types_witness :
  generate_placements 1 (init spread_draws) = (Ret spread_blocks, snd spread_run) /\
  (length spread_blocks = 4%nat \/ length spread_blocks = 5%nat) /\
  List.NoDup (map b_type spread_blocks) /\
  incl (map b_type spread_blocks) block_types /\
  length block_types = 9%nat.
Proof.
  split; [exact spread_run_returns |].
  exact (placements_distinct_types 1 (init spread_draws) spread_blocks
           (snd spread_run) spread_run_returns).
Defined.

(** C7, as stated, fails: two blocks of one returned list can have the
    same yaw. Here the first two blocks both have yaw 0. *)
Lemma placements_yaw_can_repeat :
  exists blocks st' a b,
    generate_placements 1 (init same_yaw_draws) = (Ret blocks, st') /\
    blocks !! 0%nat = Some a /\ blocks !! 1%nat = Some b /\
    float (b_Y a) = float (b_Y b).
Proof.
  eexists _, _, _, _. split; [vm_compute; reflexivity |].
  split; [reflexivity |]. split; reflexivity.
Qed.

(** C7, amended. Every block of a returned list has x = 0.1 + dx with
    dx in [-0.1, 0.1], y = 0.45 + dy with dy in [-0.25, 0.25], z the string
    0.88, roll and pitch the string 0, and a yaw in [0, 2 * math.pi).
    Nothing makes the yaws of one list differ. *)
Theorem placements_pose fuel st blocks st' :
  generate_placements fuel st = (Ret blocks, st') ->
  Forall (fun b =>
    (exists offset_x : Q, float (b_x b) = (0.1 + offset_x)%Q /\
         (-0.1 <= offset_x)%Q /\ (offset_x <= 0.1)%Q) /\
    (exists offset_y : Q, float (b_y b) = (0.45 + offset_y)%Q /\
         (-0.25 <= offset_y)%Q /\ (offset_y <= 0.25)%Q) /\
    b_z b = "0.88" /\ b_R b = str_int 0 /\ b_P b = str_int 0 /\
    (0 <= float (b_Y b))%Q /\ (float (b_Y b) < 2 * math_pi)%Q) blocks.
Proof.
  intros Hrun.
  destruct (generate_placements_Ret fuel st blocks st' Hrun) as [Hgen _].
  destruct Hgen as (K & sel & cols & _ & _ & _ & _ & _ & Hall & _).
  apply Forall_forall. intros b Hb.
  apply list_elem_of_lookup in Hb. destruct Hb as [k Hk].
  destruct (Forall2_lookup_r _ _ _ _ _ Hall Hk) as (i & _ & Hc).
  destruct Hc. repeat split; try assumption; tauto.
Qed.

Lemma placements_pose_witness :
  generate_placements 1 (init spread_draws) = (Ret spread_blocks, snd spread_run) /\
  Forall (fun b =>
    (exists offset_x : Q, float (b_x b) = (0.1 + offset_x)%Q /\
         (-0.1 <= offset_x)%Q /\ (offset_x <= 0.1)%Q) /\
    (exists offset_y : Q, float (b_y b) = (0.45 + offset_y)%Q /\
         (-0.25 <= offset_y)%Q /\ (offset_y <= 0.25)%Q) /\
    b_z b = "0.88" /\ b_R b = str_int 0 /\ b_P b = str_int 0 /\
    (0 <= float (b_Y b))%Q /\ (float (b_Y b) < 2 * math_pi)%Q) spread_blocks.
Proof.
  split; [exact spread_run_returns |].
  exact (placements_pose 1 (init spread_draws) spread_blocks
           (snd spread_run) spread_run_returns).
Defined.

(** ** Sources of draws that make the rejection loop run long *)










(** More fuel does not change what a returning run returns. *)
Lemma place_fuel_mono i selected_types colors existing_positions fuel fuel' st b st' :
  (fuel <= fuel')%nat ->
  place fuel i selected_types colors existing_positions st = (Ret b, st') ->
  place fuel' i selected_types colors existing_positions st = (Ret b, st').
Proof.
  revert fuel' st. induction fuel as [| fuel IH]; intros fuel' st Hle Hrun;
    [discriminate |].
  destruct fuel' as [| fuel']; [lia |].
  cbn [place] in *. unfold bind in *.
  destruct (candidate i selected_types colors st) as [[new_pos | e |] st1];
    try discriminate.
  destruct (negb (check_collision new_pos existing_positions default_min_distance));
    [exact Hrun |].
  apply IH; [lia | exact Hrun].
Qed.

Lemma place_all_fuel_mono fuel fuel' indices :
  (fuel <= fuel')%nat ->
  forall selected_types colors existing_positions blocks_config st r st',
    place_all fuel indices selected_types colors existing_positions blocks_config st
      = (Ret r, st') ->
    place_all fuel' indices selected_types colors existing_positions blocks_config st
      = (Ret r, st').
Proof.
  intros Hle. induction indices as [| i indices IH];
    intros sel cols ex bc st r st' Hrun; [exact Hrun |].
  cbn [place_all] in *. apply bind_Ret_inv in Hrun.
  destruct Hrun as (new_pos & st1 & Hplace & Hrest).
  rewrite (bind_Ret _ _ _ _ _ (place_fuel_mono _ _ _ _ _ _ _ _ _ Hle Hplace)).
  now apply IH.
Qed.

Lemma generate_placements_fuel_mono fuel fuel' st blocks st' :
  (fuel <= fuel')%nat ->
  generate_placements fuel st = (Ret blocks, st') ->
  generate_placements fuel' st = (Ret blocks, st').
Proof.
  intros Hle Hrun. unfold generate_placements in *.
  apply bind_Ret_inv in Hrun. destruct Hrun as (K & st1 & HK & Hrun).
  rewrite (bind_Ret _ _ _ _ _ HK).
  apply bind_Ret_inv in Hrun. destruct Hrun as (sel & st2 & Hsel & Hrun).
  rewrite (bind_Ret _ _ _ _ _ Hsel).
  apply bind_Ret_inv in Hrun. destruct Hrun as (cols & st3 & Hcols & Hrun).
  rewrite (bind_Ret _ _ _ _ _ Hcols).
  apply bind_Ret_inv in Hrun. destruct Hrun as (r & st4 & Hall & Hret).
  now rewrite (bind_Ret _ _ _ _ _ (place_all_fuel_mono _ _ _ Hle _ _ _ _ _ _ _ Hall)).
Qed.



(** ** Plugin injection *)

Lemma prefix_app (sub s : string) :
  String.prefix sub s = true <-> exists rest, s = sub ++ rest.
Proof.
  revert s. induction sub as [| c sub IH]; intros s.
  - split; [intros _; now exists s | intros _; now destruct s].
  - destruct s as [| c' s]; cbn [String.prefix].
    + split; [discriminate | intros [rest Hrest]; discriminate].
    + destruct (ascii_dec c c') as [<- | Hne].
      * rewrite IH. split; intros [rest Hrest]; exists rest.
        -- change (String c s = String c (sub ++ rest)). now rewrite Hrest.
        -- change (String c s = String c (sub ++ rest)) in Hrest. congruence.
      * split; [discriminate |]. intros [rest Hrest].
        change (String c' s = String c (sub ++ rest)) in Hrest. congruence.
Qed.

(** [contains sub s] is the substring test [sub in s]. *)
Lemma contains_spec (sub s : string) :
  contains sub s = true <-> exists before after, s = before ++ sub ++ after.
Proof.
  induction s as [| c s IH]; cbn [contains]; rewrite orb_true_iff, prefix_app.
  - split.
    + intros [[rest Hrest] | Hf]; [| discriminate]. now exists "", rest.
    + intros (before & after & Heq). left. exists after.
      destruct before as [| c before]; [exact Heq | discriminate].
  - rewrite IH. split.
    + intros [[rest Hrest] | (before & after & Heq)].
      * now exists "", rest.
      * exists (String c before), after.
        change (String c s = String c (before ++ sub ++ after)). now rewrite Heq.
    + intros (before & after & Heq). destruct before as [| c' before].
      * left. now exists after.
      * right. exists before, after.
        change (String c s = String c' (before ++ sub ++ after)) in Heq. congruence.
Qed.

Example inject_sample_sdf :
  inject_plugin (split_lines_from "" sample_sdf) =
  [ "<sdf version='1.9'>"; "  <model name='block'>"; sensor_block; "  </model>"; "</sdf>" ].
Proof. vm_compute. reflexivity. Qed.

Example inject_empty_output : inject_plugin [] = [sensor_block].
Proof. reflexivity. Qed.

Lemma py_insert_at {A} (i : nat) (x : A) (l : list A) :
  (i <= length l)%nat ->
  py_insert (Z.of_nat i) x l = (take i l ++ x :: drop i l)%list.
Proof.
  intros Hi. unfold py_insert.
  replace (Z.of_nat i <? 0)%Z with false by (symmetry; apply Z.ltb_ge; lia).
  rewrite Z.min_l by lia. now rewrite Nat2Z.id.
Qed.

Lemma first_index_app {A} (P : A -> bool) (pre : list A) (a : A) (post : list A) :
  Forall (fun b => P b = false) pre -> P a = true ->
  first_index P (pre ++ a :: post) = Some (length pre).
Proof.
  intros Hpre Ha. induction Hpre as [| b pre Hb _ IH]; cbn.
  - now rewrite Ha.
  - now rewrite Hb, IH.
Qed.

Lemma first_index_none {A} (P : A -> bool) (l : list A) :
  Forall (fun b => P b = false) l -> first_index P l = None.
Proof.
  intros Hl. induction Hl as [| b l Hb _ IH]; cbn; [reflexivity |].
  now rewrite Hb, IH.
Qed.

Lemma first_index_lt {A} (P : A -> bool) (l : list A) i :
  first_index P l = Some i -> (i < length l)%nat.
Proof.
  revert i. induction l as [| a l IH]; intros i; cbn; [discriminate |].
  destruct (P a).
  - intros [= <-]. lia.
  - destruct (first_index P l) as [k |]; cbn; [| discriminate].
    intros [= <-]. specialize (IH k eq_refl). lia.
Qed.

Lemma inject_plugin_found (pre : list string) (line : string) (post : list string) :
  Forall (fun l => contains "</model>" l = false) pre ->
  contains "</model>" line = true ->
  inject_plugin (pre ++ line :: post) = (pre ++ sensor_block :: line :: post)%list.
Proof.
  intros Hpre Hline. unfold inject_plugin, insert_index.
  rewrite (first_index_app _ pre line post Hpre Hline).
  rewrite py_insert_at by (rewrite length_app; cbn; lia).
  now rewrite take_app_length, drop_app_length.
Qed.

Lemma inject_plugin_fallback (pre : list string) (last : string) :
  Forall (fun l => contains "</model>" l = false) (pre ++ [last]) ->
  inject_plugin (pre ++ [last]) = (pre ++ [sensor_block; last])%list.
Proof.
  intros Hall. unfold inject_plugin, insert_index.
  rewrite (first_index_none _ _ Hall).
  replace (Z.of_nat (length (pre ++ [last])) - 1)%Z with (Z.of_nat (length pre))
    by (rewrite length_app; cbn; lia).
  rewrite py_insert_at by (rewrite length_app; cbn; lia).
  now rewrite take_app_length, drop_app_length.
Qed.

Lemma inject_plugin_shape (sdf_lines : list string) :
  exists i, (i <= length sdf_lines)%nat /\
    inject_plugin sdf_lines = (take i sdf_lines ++ sensor_block :: drop i sdf_lines)%list.
Proof.
  unfold inject_plugin, insert_index.
  destruct (first_index _ sdf_lines) as [i |] eqn:E.
  - apply first_index_lt in E. exists i. split; [lia |].
    apply py_insert_at. lia.
  - destruct sdf_lines as [| l sdf_lines].
    + exists 0%nat. split; [cbn; lia | reflexivity].
    + exists (length sdf_lines). split; [cbn; lia |].
      replace (Z.of_nat (length (l :: sdf_lines)) - 1)%Z
        with (Z.of_nat (length sdf_lines)) by (cbn [length]; lia).
      apply py_insert_at. cbn. lia.
Qed.

(** ** Paths *)

Lemma str_nat_inj a b : str_nat a = str_nat b -> a = b.
Proof.
  unfold str_nat. intros H.
  assert (Hu : Some (Nat.to_uint a) = Some (Nat.to_uint b)).
  { rewrite <- !NilEmpty.usu. now rewrite H. }
  injection Hu as Hu.
  rewrite <- (Unsigned.of_to a), <- (Unsigned.of_to b). now rewrite Hu.
Qed.

Lemma list_ascii_of_string_app (s1 s2 : string) :
  list_ascii_of_string (s1 ++ s2) =
  (list_ascii_of_string s1 ++ list_ascii_of_string s2)%list.
Proof.
  induction s1 as [| c s1 IH]; [reflexivity |].
  change (c :: list_ascii_of_string (s1 ++ s2)
          = c :: (list_ascii_of_string s1 ++ list_ascii_of_string s2)%list).
  now rewrite IH.
Qed.

Lemma string_app_assoc (s1 s2 s3 : string) : (s1 ++ s2) ++ s3 = s1 ++ s2 ++ s3.
Proof.
  induction s1 as [| c s1 IH]; [reflexivity |].
  change (String c ((s1 ++ s2) ++ s3) = String c (s1 ++ s2 ++ s3)). now rewrite IH.
Qed.

Lemma list_ascii_of_string_inj (s1 s2 : string) :
  list_ascii_of_string s1 = list_ascii_of_string s2 -> s1 = s2.
Proof.
  intros H. rewrite <- (string_of_list_ascii_of_string s1),
    <- (string_of_list_ascii_of_string s2). now rewrite H.
Qed.

Lemma string_app_inv_tail (s1 s2 t : string) : s1 ++ t = s2 ++ t -> s1 = s2.
Proof.
  intros H. apply list_ascii_of_string_inj.
  apply (f_equal list_ascii_of_string) in H.
  rewrite !list_ascii_of_string_app in H. now apply app_inv_tail in H.
Qed.

Lemma urdf_ext_not_sdf_ext (s1 s2 : string) : s1 ++ ".urdf" <> s2 ++ ".sdf".
Proof.
  intros H. apply (f_equal list_ascii_of_string) in H.
  rewrite !list_ascii_of_string_app in H.
  apply (f_equal (@List.rev ascii)) in H. rewrite !rev_app_distr in H.
  cbn in H. discriminate.
Qed.

Section Pipeline.

Context `{Env}.

Lemma models_path_block (rest : string) :
  models_path ("block" ++ rest) = models_prefix ++ "block" ++ rest.
Proof.
  unfold models_path, os_path_join, models_prefix. cbn [fold_left].
  set (p := path_join2 (get_package_share_directory package_name) "models").
  unfold path_join2 at 1.
  change (startswith_sep ("block" ++ rest)) with false. cbv iota.
  destruct (String.eqb p "" || endswith_sep p); [reflexivity |].
  now rewrite string_app_assoc.
Qed.

Lemma urdf_path_inj (a b : block) :
  urdf_path a = urdf_path b -> b_number a = b_number b.
Proof.
  unfold urdf_path. rewrite !models_path_block. intros Heq.
  apply String.app_inj in Heq. apply (String.app_inj "block") in Heq.
  now apply string_app_inv_tail in Heq.
Qed.

Lemma sdf_path_inj (a b : block) :
  sdf_path a = sdf_path b -> b_number a = b_number b.
Proof.
  unfold sdf_path. rewrite !models_path_block. intros Heq.
  apply String.app_inj in Heq. apply (String.app_inj "block") in Heq.
  now apply string_app_inv_tail in Heq.
Qed.

Lemma urdf_path_not_sdf_path (a b : block) : urdf_path a <> sdf_path b.
Proof.
  unfold urdf_path, sdf_path. rewrite !models_path_block. intros Heq.
  apply String.app_inj in Heq. apply (String.app_inj "block") in Heq.
  exact (urdf_ext_not_sdf_ext _ _ Heq).
Qed.

(** ** The model pipeline *)

Lemma check_output_zero cmd st output :
  run_process cmd st = (0%Z, output) ->
  check_output cmd st = (Ret output, logged st cmd).
Proof. intros Hrun. unfold check_output. now rewrite Hrun. Qed.

Lemma check_output_nonzero cmd st returncode output :
  run_process cmd st = (returncode, output) -> returncode <> 0%Z ->
  check_output cmd st = (Raise (CalledProcessError cmd returncode), logged st cmd).
Proof.
  intros Hrun Hrc. unfold check_output. rewrite Hrun.
  now apply Z.eqb_neq in Hrc as ->.
Qed.

Lemma generate_urdf_ok b st exe urdf_output :
  which "xacro" = Some exe ->
  run_process (xacro_command exe b) st = (0%Z, urdf_output) ->
  generate_urdf b st =
  (Ret urdf_output, written (logged st (xacro_command exe b)) (urdf_path b) urdf_output).
Proof.
  intros Hexe Hrun. unfold generate_urdf, try_except_CalledProcessError, find_executable.
  rewrite Hexe. unfold bind at 1. cbn [ret].
  rewrite (bind_Ret _ _ _ _ _ (check_output_zero _ _ _ Hrun)).
  reflexivity.
Qed.

Lemma generate_urdf_fails b st exe returncode output :
  which "xacro" = Some exe ->
  run_process (xacro_command exe b) st = (returncode, output) ->
  returncode <> 0%Z ->
  generate_urdf b st =
  (Raise (RuntimeError ("Error generating URDF: "
            ++ str_CalledProcessError (xacro_command exe b) returncode)),
   logged st (xacro_command exe b)).
Proof.
  intros Hexe Hrun Hrc.
  unfold generate_urdf, try_except_CalledProcessError, find_executable.
  rewrite Hexe. unfold bind at 1. cbn [ret].
  rewrite (bind_Raise _ _ _ _ _ (check_output_nonzero _ _ _ _ Hrun Hrc)).
  reflexivity.
Qed.

Lemma convert_to_sdf_ok b st exe sdf_output :
  which "gz" = Some exe ->
  run_process (sdf_command exe b) st = (0%Z, sdf_output) ->
  convert_to_sdf b st =
  (Ret tt, written (logged st (sdf_command exe b)) (sdf_path b)
             (String.concat nl (inject_plugin (splitlines sdf_output)))).
Proof.
  intros Hexe Hrun. unfold convert_to_sdf, try_except_CalledProcessError, find_executable.
  rewrite Hexe. unfold bind at 1. cbn [ret].
  rewrite (bind_Ret _ _ _ _ _ (check_output_zero _ _ _ Hrun)).
  reflexivity.
Qed.

Lemma convert_to_sdf_fails b st exe returncode output :
  which "gz" = Some exe ->
  run_process (sdf_command exe b) st = (returncode, output) ->
  returncode <> 0%Z ->
  convert_to_sdf b st =
  (Raise (RuntimeError ("Error converting URDF to SDF: "
            ++ str_CalledProcessError (sdf_command exe b) returncode)),
   logged st (sdf_command exe b)).
Proof.
  intros Hexe Hrun Hrc.
  unfold convert_to_sdf, try_except_CalledProcessError, find_executable.
  rewrite Hexe. unfold bind at 1. cbn [ret].
  rewrite (bind_Raise _ _ _ _ _ (check_output_nonzero _ _ _ _ Hrun Hrc)).
  reflexivity.
Qed.

End Pipeline.

Section PipelineFrame.

Context `{Env}.

Lemma generate_urdf_frame b st r st' :
  generate_urdf b st = (r, st') ->
  forall p, p <> urdf_path b -> fs st' !! p = fs st !! p.
Proof.
  unfold generate_urdf, try_except_CalledProcessError, find_executable, bind,
    check_output, write_file, ret, raise.
  destruct (which "xacro") as [exe |]; cbn.
  - destruct (run_process (xacro_command exe b) st) as [rc out].
    destruct (rc =? 0)%Z; cbn; intros [= <- <-] p Hp; cbn;
      [now rewrite lookup_insert_ne | reflexivity].
  - intros [= <- <-]. reflexivity.
Qed.

Lemma convert_to_sdf_frame b st r st' :
  convert_to_sdf b st = (r, st') ->
  forall p, p <> sdf_path b -> fs st' !! p = fs st !! p.
Proof.
  unfold convert_to_sdf, try_except_CalledProcessError, find_executable, bind,
    check_output, write_file, ret, raise.
  destruct (which "gz") as [exe |]; cbn.
  - destruct (run_process (sdf_command exe b) st) as [rc out].
    destruct (rc =? 0)%Z; cbn; intros [= <- <-] p Hp; cbn;
      [now rewrite lookup_insert_ne | reflexivity].
  - intros [= <- <-]. reflexivity.
Qed.

(** The loop over the blocks writes the files of those blocks only. *)
Lemma build_instances_frame blocks_config :
  forall instances_cmds st r st',
    build_instances blocks_config instances_cmds st = (r, st') ->
    forall p,
      (forall d, List.In d blocks_config -> p <> urdf_path d /\ p <> sdf_path d) ->
      fs st' !! p = fs st !! p.
Proof.
  induction blocks_config as [| b rest IH]; intros acc st r st' Hrun p Hp.
  - cbn in Hrun. now inversion Hrun.
  - cbn [build_instances] in Hrun. unfold bind at 1 in Hrun.
    destruct (generate_urdf b st) as [r1 st1] eqn:E1.
    pose proof (generate_urdf_frame b st r1 st1 E1 p
                  (proj1 (Hp b (or_introl eq_refl)))) as F1.
    destruct r1 as [urdf_output | e |]; try (inversion Hrun; subst; exact F1).
    unfold bind at 1 in Hrun.
    destruct (convert_to_sdf b st1) as [r2 st2] eqn:E2.
    pose proof (convert_to_sdf_frame b st1 r2 st2 E2 p
                  (proj2 (Hp b (or_introl eq_refl)))) as F2.
    destruct r2 as [[] | e |]; try (inversion Hrun; subst; congruence).
    rewrite (IH _ _ _ _ Hrun p); [congruence |].
    intros d Hd. apply Hp. now right.
Qed.

Lemma build_instances_app l1 : forall l2 instances_cmds st,
  build_instances (l1 ++ l2) instances_cmds st =
  bind (build_instances l1 instances_cmds) (build_instances l2) st.
Proof.
  induction l1 as [| b l1 IH]; intros l2 acc st; [reflexivity |].
  cbn [build_instances app]. rewrite bind_assoc.
  apply bind_ext. intros urdf_output st1. rewrite bind_assoc.
  apply bind_ext. intros _ st2. apply IH.
Qed.

(** When the loop returns, it has appended the two nodes of every block,
    in the order of the blocks. *)
Lemma build_instances_Ret blocks_config :
  forall instances_cmds st acts st',
    build_instances blocks_config instances_cmds st = (Ret acts, st') ->
    exists urdfs,
      length urdfs = length blocks_config /\
      acts = (instances_cmds ++ concat (zip_with block_actions blocks_config urdfs))%list.
Proof.
  induction blocks_config as [| b rest IH]; intros acc st acts st' Hrun.
  - cbn in Hrun. inversion Hrun; subst. exists []. cbn. now rewrite app_nil_r.
  - cbn [build_instances] in Hrun.
    apply bind_Ret_inv in Hrun. destruct Hrun as (urdf_output & st1 & _ & Hrun).
    apply bind_Ret_inv in Hrun. destruct Hrun as ([] & st2 & _ & Hrun).
    destruct (IH _ _ _ _ Hrun) as (urdfs & Hlen & ->).
    exists (urdf_output :: urdfs). split; [cbn; now rewrite Hlen |].
    cbn. now rewrite <- !app_assoc.
Qed.

Lemma length_block_actions blocks_config : forall urdfs,
  length urdfs = length blocks_config ->
  length (concat (zip_with block_actions blocks_config urdfs))
  = (2 * length blocks_config)%nat.
Proof.
  induction blocks_config as [| b rest IH]; intros [| u urdfs] Hlen;
    cbn in *; try lia.
  rewrite IH by lia. lia.
Qed.

End PipelineFrame.

Lemma candidates_numbers (selected_types cols : list string) n :
  forall s blocks,
    Forall2 (fun i b => is_candidate i selected_types cols b) (seq s n) blocks ->
    map b_number blocks = map str_nat (seq (S s) n).
Proof.
  induction n as [| n IH]; intros s blocks Hall; cbn in Hall.
  - inversion Hall. reflexivity.
  - inversion Hall as [| i b idxs bs Hc Hrest]; subst. cbn [map seq].
    rewrite (IH _ _ Hrest), (cand_number _ _ _ _ Hc).
    now replace (s + 1)%nat with (S s) by lia.
Qed.

Lemma generated_numbers blocks :
  generated blocks ->
  map b_number blocks = map str_nat (seq 1 (length blocks)).
Proof.
  intros (K & sel & cols & HK & _ & _ & _ & _ & Hall & _).
  pose proof (Forall2_length _ _ _ Hall) as Hlen.
  unfold range in *. rewrite length_seq in Hlen. rewrite <- Hlen.
  exact (candidates_numbers _ _ _ _ _ Hall).
Qed.

Lemma generated_numbers_NoDup blocks :
  generated blocks -> List.NoDup (map b_number blocks).
Proof.
  intros Hgen. rewrite (generated_numbers blocks Hgen).
  apply Finite.Injective_map_NoDup; [exact str_nat_inj | apply List.seq_NoDup].
Qed.

Lemma NoDup_map_lookup {A B} (f : A -> B) (l : list A) i j a b :
  List.NoDup (map f l) -> i <> j -> l !! i = Some a -> l !! j = Some b ->
  f a <> f b.
Proof.
  intros Hnd Hne Ha Hb Heq. apply NoDup_ListNoDup in Hnd.
  apply Hne. eapply (NoDup_lookup (map f l) i j (f a)); [assumption | |].
  - now rewrite list_lookup_fmap, Ha.
  - now rewrite list_lookup_fmap, Hb, Heq.
Qed.

(** ** Plugin injection and tool failures *)

(** C5. The plugin fragment goes immediately before the first line that
    contains the closing tag; if no line contains it, immediately before
    the last line, and for an empty line sequence the fragment becomes
    the only line; in every case the conversion step returns normally and
    writes the joined lines to the block's final-description file. *)
Theorem plugin_inserted_before_closing_tag `{Env} :
  (forall (pre : list string) (line : string) (post : list string),
     Forall (fun l => contains "</model>" l = false) pre ->
     contains "</model>" line = true ->
     inject_plugin (pre ++ line :: post) = (pre ++ sensor_block :: line :: post)%list) /\
  (forall (pre : list string) (last : string),
     Forall (fun l => contains "</model>" l = false) (pre ++ [last]) ->
     inject_plugin (pre ++ [last]) = (pre ++ [sensor_block; last])%list) /\
  inject_plugin [] = [sensor_block] /\
  (forall b st exe sdf_output,
     which "gz" = Some exe ->
     run_process (sdf_command exe b) st = (0%Z, sdf_output) ->
     convert_to_sdf b st =
     (Ret tt, written (logged st (sdf_command exe b)) (sdf_path b)
                (String.concat nl (inject_plugin (splitlines sdf_output))))).
Proof.
  split; [exact inject_plugin_found |].
  split; [exact inject_plugin_fallback |].
  split; [reflexivity |].
  intros b st exe sdf_output. apply convert_to_sdf_ok.
Qed.

(** A converter output of two lines without the closing tag. *)
Lemma plugin_inserted_before_closing_tag_witness :
  Forall (fun l => contains "</model>" l = false) (["<sdf>"] ++ ["</sdf>"]) /\
  inject_plugin (["<sdf>"] ++ ["</sdf>"]) = (["<sdf>"] ++ [sensor_block; "</sdf>"])%list.
Proof.
  assert (Hno : Forall (fun l => contains "</model>" l = false) (["<sdf>"] ++ ["</sdf>"])).
  { repeat constructor. }
  split; [exact Hno |].
  exact (proj1 (proj2 (@plugin_inserted_before_closing_tag tools_ok)) ["<sdf>"] "</sdf>" Hno).
Defined.

(** C9. Plugin injection puts one element into the line list and changes
    nothing else: the result is the lines up to some position, the
    fragment, and the remaining lines; deleting the fragment gives the
    converter's lines back; the result is one element longer. *)
Theorem plugin_injection_only_inserts (sdf_lines : list string) :
  exists i : nat,
    (i <= length sdf_lines)%nat /\
    inject_plugin sdf_lines = (take i sdf_lines ++ sensor_block :: drop i sdf_lines)%list /\
    delete i (inject_plugin sdf_lines) = sdf_lines /\
    sublist sdf_lines (inject_plugin sdf_lines) /\
    length (inject_plugin sdf_lines) = S (length sdf_lines).
Proof.
  destruct (inject_plugin_shape sdf_lines) as (i & Hi & Heq).
  exists i. rewrite Heq. split; [exact Hi |]. split; [reflexivity |].
  split; [| split].
  - rewrite delete_take_drop.
    rewrite take_app_le by (rewrite length_take; lia).
    rewrite take_take, Nat.min_id.
    replace (S i) with (length (take i sdf_lines) + 1)%nat by (rewrite length_take; lia).
    rewrite <- drop_drop, drop_app_length.
    change (drop 1 (sensor_block :: drop i sdf_lines)) with (drop i sdf_lines).
    apply take_drop.
  - assert (Hsub : sublist (take i sdf_lines ++ drop i sdf_lines)%list
                      (take i sdf_lines ++ sensor_block :: drop i sdf_lines)%list).
    { apply sublist_app; [reflexivity |]. apply sublist_cons. reflexivity. }
    now rewrite take_drop in Hsub.
  - rewrite length_app. cbn. rewrite length_take, length_drop. lia.
Qed.

Section Failure.

Context `{Env}.

Lemma earlier_blocks_other_paths (done : list block) (b : block) (rest : list block) :
  List.NoDup (map b_number (done ++ b :: rest)) ->
  forall d, List.In d done ->
    (sdf_path b <> urdf_path d /\ sdf_path b <> sdf_path d) /\
    (urdf_path b <> urdf_path d /\ urdf_path b <> sdf_path d).
Proof.
  intros Hnd d Hd.
  assert (Hne : b_number b <> b_number d).
  { rewrite map_app in Hnd. cbn [map] in Hnd.
    apply List.NoDup_remove_2 in Hnd. intros Heq. apply Hnd.
    apply in_or_app. left. rewrite Heq. now apply in_map. }
  repeat split.
  - intros Heq. exact (urdf_path_not_sdf_path d b (eq_sym Heq)).
  - intros Heq. exact (Hne (sdf_path_inj b d Heq)).
  - intros Heq. exact (Hne (urdf_path_inj b d Heq)).
  - apply urdf_path_not_sdf_path.
Qed.

Lemma str_CalledProcessError_command cmd returncode :
  exists detail,
    str_CalledProcessError cmd returncode = "Command '" ++ str_list cmd ++ "' " ++ detail.
Proof.
  unfold str_CalledProcessError. destruct (returncode <? 0)%Z.
  - exists ("died with " ++ signal_text (- returncode) ++ ".").
    change "' died with " with ("' " ++ "died with ").
    now rewrite !string_app_assoc.
  - exists ("returned non-zero exit status " ++ str_int returncode ++ ".").
    change "' returned non-zero exit status "
      with ("' " ++ "returned non-zero exit status ").
    now rewrite !string_app_assoc.
Qed.

End Failure.

(** C6. When the blocks before block [b] have been processed and the
    xacro run for [b] exits with a non-zero status, [spawn_block] raises
    RuntimeError with the text of the CalledProcessError, which names the
    command; the failing command is the last one run and it ran once; no
    action list is returned; neither file of [b] has been written. The
    same holds for a failing gz run, except that the URDF file of [b] has
    been written by then. *)
Theorem tool_failure_is_fatal `{Env} fuel st blocks st0 done b rest acc st1 :
  generate_placements fuel st = (Ret blocks, st0) ->
  blocks = (done ++ b :: rest)%list ->
  build_instances done [] st0 = (Ret acc, st1) ->
  (forall exe returncode output,
     which "xacro" = Some exe ->
     run_process (xacro_command exe b) st1 = (returncode, output) ->
     returncode <> 0%Z ->
     spawn_block fuel st =
       (Raise (RuntimeError ("Error generating URDF: "
                 ++ str_CalledProcessError (xacro_command exe b) returncode)),
        logged st1 (xacro_command exe b)) /\
     fs (logged st1 (xacro_command exe b)) !! sdf_path b = fs st !! sdf_path b /\
     fs (logged st1 (xacro_command exe b)) !! urdf_path b = fs st !! urdf_path b) /\
  (forall xacro urdf_output exe returncode output,
     which "xacro" = Some xacro ->
     run_process (xacro_command xacro b) st1 = (0%Z, urdf_output) ->
     which "gz" = Some exe ->
     run_process (sdf_command exe b)
       (written (logged st1 (xacro_command xacro b)) (urdf_path b) urdf_output)
       = (returncode, output) ->
     returncode <> 0%Z ->
     spawn_block fuel st =
       (Raise (RuntimeError ("Error converting URDF to SDF: "
                 ++ str_CalledProcessError (sdf_command exe b) returncode)),
        logged (written (logged st1 (xacro_command xacro b)) (urdf_path b) urdf_output)
          (sdf_command exe b)) /\
     fs (logged (written (logged st1 (xacro_command xacro b)) (urdf_path b) urdf_output)
           (sdf_command exe b)) !! sdf_path b = fs st !! sdf_path b) /\
  (forall cmd returncode, exists detail,
     str_CalledProcessError cmd returncode = "Command '" ++ str_list cmd ++ "' " ++ detail).
Proof.
  intros Hgen -> Hdone.
  destruct (generate_placements_Ret fuel st _ st0 Hgen) as [Hg [Hfs0 _]].
  pose proof (generated_numbers_NoDup _ Hg) as Hnd.
  pose proof (earlier_blocks_other_paths done b rest Hnd) as Hpaths.
  assert (Hsdf : fs st1 !! sdf_path b = fs st !! sdf_path b).
  { rewrite <- Hfs0. apply (build_instances_frame done [] st0 _ st1 Hdone).
    intros d Hd. apply (Hpaths d Hd). }
  assert (Hurdf : fs st1 !! urdf_path b = fs st !! urdf_path b).
  { rewrite <- Hfs0. apply (build_instances_frame done [] st0 _ st1 Hdone).
    intros d Hd. apply (Hpaths d Hd). }
  assert (Hspawn : spawn_block fuel st = build_instances (b :: rest) acc st1).
  { unfold spawn_block. rewrite (bind_Ret _ _ _ _ _ Hgen).
    rewrite build_instances_app. now rewrite (bind_Ret _ _ _ _ _ Hdone). }
  split; [| split].
  - intros exe rc out Hexe Hrun Hrc. split; [| split; assumption].
    rewrite Hspawn. cbn [build_instances].
    now rewrite (bind_Raise _ _ _ _ _ (generate_urdf_fails b st1 exe rc out Hexe Hrun Hrc)).
  - intros xacro urdf_output exe rc out Hx Hrunx Hexe Hrun Hrc. split.
    + rewrite Hspawn. cbn [build_instances].
      rewrite (bind_Ret _ _ _ _ _ (generate_urdf_ok b st1 xacro urdf_output Hx Hrunx)).
      now rewrite (bind_Raise _ _ _ _ _
                     (convert_to_sdf_fails b _ exe rc out Hexe Hrun Hrc)).
    + cbn [logged written fs]. rewrite lookup_insert_ne; [exact Hsdf |].
      apply urdf_path_not_sdf_path.
  - apply str_CalledProcessError_command.
Qed.

Lemma spread_blocks_split : spread_blocks = ([] ++ spread_first :: spread_rest)%list.
Proof. vm_compute. reflexivity. Qed.

Lemma tool_failure_is_fatal_witness :
  generate_placements 1 (init spread_draws) = (Ret spread_blocks, snd spread_run) /\
  spread_blocks = ([] ++ spread_first :: spread_rest)%list /\
  @build_instances tools_fail [] [] (snd spread_run) = (Ret [], snd spread_run) /\
  @which tools_fail "xacro" = Some "/usr/bin/xacro" /\
  @run_process tools_fail (@xacro_command tools_fail "/usr/bin/xacro" spread_first)
    (snd spread_run) = (2%Z, "") /\
  2%Z <> 0%Z /\
  @spawn_block tools_fail 1 (init spread_draws) =
    (Raise (RuntimeError ("Error generating URDF: "
              ++ @str_CalledProcessError tools_fail
                   (@xacro_command tools_fail "/usr/bin/xacro" spread_first) 2)),
     logged (snd spread_run) (@xacro_command tools_fail "/usr/bin/xacro" spread_first)).
Proof.
  split; [exact spread_run_returns |].
  split; [exact spread_blocks_split |].
  split; [reflexivity |]. split; [reflexivity |]. split; [reflexivity |].
  split; [discriminate |].
  exact (proj1 (proj1 (@tool_failure_is_fatal tools_fail 1 (init spread_draws)
                  spread_blocks (snd spread_run) [] spread_first spread_rest []
                  (snd spread_run) spread_run_returns spread_blocks_split eq_refl)
                "/usr/bin/xacro" 2%Z "" eq_refl eq_refl ltac:(discriminate))).
Defined.

(** C10. When [spawn_block] returns, the list holds, for the blocks in
    their order, the block's robot_state_publisher node immediately
    followed by the block's spawn node, so 2K actions for K blocks; the
    blocks are numbered 1 to K; the URDF paths of two different blocks
    differ, so do their SDF paths, and no URDF path is an SDF path. *)
Theorem spawn_block_actions `{Env} fuel st acts st' :
  spawn_block fuel st = (Ret acts, st') ->
  exists blocks st0 urdfs,
    generate_placements fuel st = (Ret blocks, st0) /\
    length urdfs = length blocks /\
    acts = concat (zip_with block_actions blocks urdfs) /\
    length acts = (2 * length blocks)%nat /\
    map b_number blocks = map str_nat (seq 1 (length blocks)) /\
    (forall i j a b, i <> j -> blocks !! i = Some a -> blocks !! j = Some b ->
       urdf_path a <> urdf_path b /\ sdf_path a <> sdf_path b) /\
    (forall a b : block, urdf_path a <> sdf_path b).
Proof.
  intros Hrun. unfold spawn_block in Hrun.
  apply bind_Ret_inv in Hrun. destruct Hrun as (blocks & st0 & Hgen & Hbuild).
  destruct (build_instances_Ret blocks [] st0 acts st' Hbuild) as (urdfs & Hlen & Hacts).
  cbn [app] in Hacts.
  destruct (generate_placements_Ret fuel st blocks st0 Hgen) as [Hg _].
  exists blocks, st0, urdfs.
  split; [exact Hgen |]. split; [exact Hlen |]. split; [exact Hacts |].
  split; [rewrite Hacts; now apply length_block_actions |].
  split; [now apply generated_numbers |].
  split; [| apply urdf_path_not_sdf_path].
  intros i j a b Hne Ha Hb.
  pose proof (NoDup_map_lookup b_number blocks i j a b
                (generated_numbers_NoDup blocks Hg) Hne Ha Hb) as Hnum.
  split; intros Heq; apply Hnum; [now apply urdf_path_inj | now apply sdf_path_inj].
Qed.

Lemma ok_run_returns :
  @spawn_block tools_ok 1 (init spread_draws) = (Ret ok_actions, snd ok_run).
Proof. vm_compute. reflexivity. Qed.

Lemma spawn_block_actions_witness :
  @spawn_block tools_ok 1 (init spread_draws) = (Ret ok_actions, snd ok_run) /\
  exists blocks st0 urdfs,
    generate_placements 1 (init spread_draws) = (Ret blocks, st0) /\
    length urdfs = length blocks /\
    ok_actions = concat (zip_with (@block_actions tools_ok) blocks urdfs) /\
    length ok_actions = (2 * length blocks)%nat /\
    map b_number blocks = map str_nat (seq 1 (length blocks)) /\
    (forall i j a b, i <> j -> blocks !! i = Some a -> blocks !! j = Some b ->
       @urdf_path tools_ok a <> @urdf_path tools_ok b /\
       @sdf_path tools_ok a <> @sdf_path tools_ok b) /\
    (forall a b : block, @urdf_path tools_ok a <> @sdf_path tools_ok b).
Proof.
  split; [exact ok_run_returns |].
  exact (@spawn_block_actions tools_ok 1 (init spread_draws) ok_actions (snd ok_run)
           ok_run_returns).
Defined.

(** ** The startup plan *)

(** C2, as stated, fails: in the returned list the simulator launch does
    not come before the element that produces the block spawn actions. *)
Lemma simulator_not_before_block_spawner :
  ~ exists i j : nat,
      (i < j)%nat /\
      @generate_launch_description tools_ok !! i = Some (@gazebo_launch tools_ok) /\
      @generate_launch_description tools_ok !! j = Some (OpaqueFunction spawn_block_function).
Proof.
  intros (i & j & Hlt & Hi & Hj).
  assert (Hj6 : j = 6%nat).
  { do 18 (destruct j as [| j]; [vm_compute in Hj; first [discriminate | reflexivity] |]).
    vm_compute in Hj. discriminate. }
  subst j.
  do 6 (destruct i as [| i]; [vm_compute in Hi; discriminate |]).
  lia.
Qed.

(** C2, amended. In the returned list of 18 actions the element that
    produces the per-block spawn actions is the one at index 6 and the
    simulator launch is the one at index 10, later in the list; the
    camera, robot and desk spawn nodes follow the simulator launch. *)
Theorem block_spawner_precedes_simulator `{Env} :
  generate_launch_description !! 6%nat = Some (OpaqueFunction spawn_block_function) /\
  generate_launch_description !! 10%nat = Some gazebo_launch /\
  map is_block_spawner generate_launch_description =
    [ false; false; false; false; false; false; true; false; false;
      false; false; false; false; false; false; false; false; false ] /\
  map is_simulator_bootstrap generate_launch_description =
    [ false; false; false; false; false; false; false; false; false;
      false; true; false; false; false; false; false; false; false ] /\
  first_index is_block_spawner generate_launch_description = Some 6%nat /\
  first_index is_simulator_bootstrap generate_launch_description = Some 10%nat /\
  generate_launch_description !! 11%nat = Some spawn_camera /\
  generate_launch_description !! 12%nat = Some spawn_ur5 /\
  generate_launch_description !! 13%nat = Some spawn_desk.
Proof. repeat split; reflexivity. Qed.

(** * Further properties of the launch file *)

(** ** check_collision *)

Lemma check_collision_existsb new_pos existing min_distance :
  check_collision new_pos existing min_distance =
  existsb (fun pos => sqrt_ltb (planar_distance2 new_pos pos) min_distance) existing.
Proof.
  induction existing as [| pos rest IH]; [reflexivity |].
  cbn [check_collision existsb]. fold (planar_distance2 new_pos pos).
  rewrite IH. now destruct (sqrt_ltb _ _).
Qed.

(** X1. [check_collision] answers True exactly when, for some listed
    position, the value that double-precision arithmetic gives to
    sqrt (dx*dx + dy*dy) is below [min_distance]. That value is not the
    exact distance: for two positions 1e-170 apart the squares underflow
    to 0, and the answer for a [min_distance] of 1e-200 is True although
    the positions are farther apart than that. *)
Theorem check_collision_iff :
  (forall new_pos existing min_distance,
     Double.check_collision new_pos existing min_distance = true <->
     Exists (fun pos =>
       PrimFloat.ltb (computed_distance new_pos pos) min_distance = true) existing) /\
  Double.check_collision Tiny.close_by [Tiny.origin] Tiny.min_distance = true /\
  (exact Tiny.min_distance * exact Tiny.min_distance
   < exact_distance2 Tiny.close_by Tiny.origin)%Q.
Proof.
  split.
  - intros new_pos existing min_distance.
    rewrite double_check_collision_existsb, existsb_exists, Exists_exists.
    split; intros (pos & Hin & Hlt); exists pos;
      (split; [now apply list_elem_of_In | exact Hlt]).
  - split; vm_compute; reflexivity.
Qed.

(** X2. The answer of [check_collision] does not depend on the order of
    the listed positions. *)
Theorem check_collision_permutation new_pos existing existing' min_distance :
  Permutation existing existing' ->
  check_collision new_pos existing min_distance =
  check_collision new_pos existing' min_distance.
Proof.
  intros Hperm. rewrite !check_collision_existsb.
  induction Hperm as [| x l l' _ IH | x y l | l l' l'' _ IH1 _ IH2]; cbn [existsb].
  - reflexivity.
  - now rewrite IH.
  - now rewrite !orb_assoc, (orb_comm (sqrt_ltb _ _) (sqrt_ltb _ _)).
  - congruence.
Qed.

Lemma check_collision_permutation_witness :
  Permutation spread_blocks (List.rev spread_blocks) /\
  check_collision first_block spread_blocks default_min_distance =
  check_collision first_block (List.rev spread_blocks) default_min_distance.
Proof.
  split; [apply Permutation_rev |].
  exact (check_collision_permutation first_block spread_blocks (List.rev spread_blocks)
           default_min_distance (Permutation_rev spread_blocks)).
Defined.



(** ** What the random part leaves alone *)

Lemma keeps_world_ret {A} (a : A) : keeps_world (ret a).
Proof. intros st. apply same_world_refl. Qed.

Lemma keeps_world_raise {A} (e : exn) : keeps_world (@raise A e).
Proof. intros st. apply same_world_refl. Qed.

Lemma keeps_world_spin {A} : keeps_world (@spin A).
Proof. intros st. apply same_world_refl. Qed.

Lemma keeps_world_bind {A B} (m : M A) (k : A -> M B) :
  keeps_world m -> (forall a, keeps_world (k a)) -> keeps_world (bind m k).
Proof.
  intros Hm Hk st. unfold bind. specialize (Hm st).
  destruct (m st) as [[a | e |] st1]; cbn [snd] in *; try exact Hm.
  eapply same_world_trans; [exact Hm | apply Hk].
Qed.

Lemma keeps_world_getitem {A} (l : list A) i : keeps_world (getitem l i).
Proof. unfold getitem. destruct (l !! i); [apply keeps_world_ret | apply keeps_world_raise]. Qed.

Lemma keeps_world_randbelow n : keeps_world (randbelow n).
Proof. intros st. apply same_world_advance. Qed.

Lemma keeps_world_random : keeps_world random.
Proof. intros st. apply same_world_advance. Qed.

Lemma keeps_world_uniform a b : keeps_world (uniform a b).
Proof.
  apply keeps_world_bind; [apply keeps_world_random | intros; apply keeps_world_ret].
Qed.

Lemma keeps_world_randint a b : keeps_world (randint a b).
Proof.
  unfold randint. destruct (b + 1 - a <=? 0)%Z; [apply keeps_world_raise |].
  apply keeps_world_bind; [apply keeps_world_randbelow | intros; apply keeps_world_ret].
Qed.

Lemma keeps_world_sample_loop {A} r : forall i n (pool : list A),
  keeps_world (sample_loop r i n pool).
Proof.
  induction r as [| r IH]; intros i n pool; cbn [sample_loop];
    [apply keeps_world_ret |].
  apply keeps_world_bind; [apply keeps_world_randbelow | intros j].
  apply keeps_world_bind; [apply keeps_world_getitem | intros picked].
  apply keeps_world_bind; [apply keeps_world_getitem | intros filler].
  apply keeps_world_bind; [apply IH | intros; apply keeps_world_ret].
Qed.

Lemma keeps_world_sample {A} (population : list A) k : keeps_world (sample population k).
Proof.
  unfold sample. destruct (_ || _); [apply keeps_world_raise |].
  apply keeps_world_sample_loop.
Qed.

Lemma keeps_world_shuffle_loop {A} i : forall x : list A, keeps_world (shuffle_loop i x).
Proof.
  induction i as [| i IH]; intros x; cbn [shuffle_loop]; [apply keeps_world_ret |].
  apply keeps_world_bind; [apply keeps_world_randbelow | intros j].
  apply keeps_world_bind; [apply keeps_world_getitem | intros xi].
  apply keeps_world_bind; [apply keeps_world_getitem | intros xj]. apply IH.
Qed.

Lemma keeps_world_colors N : keeps_world (generate_balanced_colors N).
Proof.
  unfold generate_balanced_colors. apply keeps_world_bind.
  - destruct (_ =? 0)%Z; [apply keeps_world_ret |].
    apply keeps_world_bind; [apply keeps_world_sample | intros; apply keeps_world_ret].
  - intros result. apply keeps_world_shuffle_loop.
Qed.

Lemma keeps_world_candidate i selected_types colors :
  keeps_world (candidate i selected_types colors).
Proof.
  unfold candidate.
  apply keeps_world_bind; [apply keeps_world_uniform | intros offset_x].
  apply keeps_world_bind; [apply keeps_world_uniform | intros offset_y].
  apply keeps_world_bind.
  { apply keeps_world_bind; [apply keeps_world_uniform | intros; apply keeps_world_ret]. }
  intros [[rot_x rot_y] rot_z].
  apply keeps_world_bind; [apply keeps_world_getitem | intros ty].
  apply keeps_world_bind; [apply keeps_world_getitem | intros color].
  apply keeps_world_ret.
Qed.

Lemma keeps_world_place fuel i selected_types colors existing_positions :
  keeps_world (place fuel i selected_types colors existing_positions).
Proof.
  induction fuel as [| fuel IH]; cbn [place]; [apply keeps_world_spin |].
  apply keeps_world_bind; [apply keeps_world_candidate | intros new_pos].
  destruct (negb _); [apply keeps_world_ret | apply IH].
Qed.

Lemma keeps_world_place_all fuel indices :
  forall selected_types colors existing_positions blocks_config,
    keeps_world (place_all fuel indices selected_types colors existing_positions
                   blocks_config).
Proof.
  induction indices as [| i indices IH]; intros sel cols ex bc; cbn [place_all];
    [apply keeps_world_ret |].
  apply keeps_world_bind; [apply keeps_world_place | intros new_pos]. apply IH.
Qed.

Lemma keeps_world_generate_placements fuel : keeps_world (generate_placements fuel).
Proof.
  unfold generate_placements.
  apply keeps_world_bind; [apply keeps_world_randint | intros num_blocks].
  apply keeps_world_bind; [apply keeps_world_sample | intros selected_types].
  apply keeps_world_bind; [apply keeps_world_colors | intros colors].
  apply keeps_world_bind; [apply keeps_world_place_all | intros; apply keeps_world_ret].
Qed.

(** X4. Whatever their outcome (a value, or still sampling when the fuel
    is used up), the colour balancer and the placement generator write
    no file and run no command: they only consume draws. *)
Theorem random_part_has_no_side_effect :
  (forall N st,
     fs (snd (generate_balanced_colors N st)) = fs st /\
     calls (snd (generate_balanced_colors N st)) = calls st) /\
  (forall fuel st,
     fs (snd (generate_placements fuel st)) = fs st /\
     calls (snd (generate_placements fuel st)) = calls st).
Proof.
  split.
  - intros N st. apply (keeps_world_colors N st).
  - intros fuel st. apply (keeps_world_generate_placements fuel st).
Qed.

(** ** generate_balanced_colors outside the counts the launch uses *)

(** X5. For a negative count the colour balancer does not raise: the
    floor division makes the repeated palette empty, and the result is
    [N mod 4] pairwise different palette colours (3 colours for N = -1). *)
Theorem generate_balanced_colors_negative (N : Z) (st : state) :
  (N < 0)%Z ->
  exists (result : list string) (st' : state),
    generate_balanced_colors N st = (Ret result, st') /\
    Z.of_nat (length result) = (N mod 4)%Z /\
    List.NoDup result /\ incl result colors.
Proof.
  intros HN. unfold generate_balanced_colors.
  change (Z.of_nat (length colors)) with 4%Z.
  pose proof (Z.mod_pos_bound N 4 ltac:(lia)) as Hmod.
  assert (Hdiv : (N / 4 < 0)%Z) by (apply Z.div_lt_upper_bound; lia).
  assert (Hnil : list_mul colors (N / 4) = []).
  { unfold list_mul. now replace (Z.to_nat (N / 4)) with 0%nat by lia. }
  rewrite Hnil.
  destruct (N mod 4 =? 0)%Z eqn:E.
  - apply Z.eqb_eq in E. exists [], st. rewrite E. cbn.
    repeat split; [constructor | intros x [] ].
  - destruct (sample_spec colors (N mod 4) st) as
      (res & rest & st1 & Hrun & Hlen & Hperm & _); [cbn; lia |].
    destruct (shuffle_spec res st1) as (result & st' & Hrun2 & Hperm2 & _).
    exists result, st'.
    assert (Hnd : List.NoDup (res ++ rest)).
    { apply (Permutation_NoDup Hperm). apply NoDup_ListNoDup, NoDup_colors. }
    split; [| split; [| split]].
    + rewrite (bind_Ret _ _ _ _ _
                 (bind_Ret _ _ _ _ _ Hrun : bind (sample colors (N mod 4))
                     (fun extra => ret ([] ++ extra)%list) st = (Ret res, st1))).
      exact Hrun2.
    + rewrite <- (Permutation_length Hperm2), Hlen. lia.
    + apply (Permutation_NoDup Hperm2). now apply List.NoDup_app_remove_r in Hnd.
    + intros x Hx. apply (Permutation_in x (Permutation_sym Hperm2)) in Hx.
      apply (Permutation_in x (Permutation_sym Hperm)). apply in_or_app. now left.
Qed.

Lemma generate_balanced_colors_negative_witness :
  (-1 < 0)%Z /\
  exists (result : list string) (st' : state),
    generate_balanced_colors (-1) (init [2; 3; 1; 0; 2]%N) = (Ret result, st') /\
    Z.of_nat (length result) = (-1 mod 4)%Z /\
    List.NoDup result /\ incl result colors.
Proof.
  split; [lia |].
  apply (generate_balanced_colors_negative (-1) (init [2; 3; 1; 0; 2]%N)). lia.
Defined.

(** ** The colours of the generated blocks *)

Lemma generate_placements_inv fuel st blocks st' :
  generate_placements fuel st = (Ret blocks, st') ->
  exists num_blocks selected_types cols existing st1 st2 st3,
    randint 4 5 st = (Ret num_blocks, st1) /\
    sample block_types num_blocks st1 = (Ret selected_types, st2) /\
    generate_balanced_colors num_blocks st2 = (Ret cols, st3) /\
    place_all fuel (range num_blocks) selected_types cols [] [] st3
      = (Ret (existing, blocks), st').
Proof.
  intros Hrun. unfold generate_placements in Hrun.
  apply bind_Ret_inv in Hrun. destruct Hrun as (K & st1 & HK & Hrun).
  apply bind_Ret_inv in Hrun. destruct Hrun as (sel & st2 & Hsel & Hrun).
  apply bind_Ret_inv in Hrun. destruct Hrun as (cols & st3 & Hcols & Hrun).
  apply bind_Ret_inv in Hrun. destruct Hrun as ([ex bc] & st4 & Hall & Hret).
  inversion Hret; subst.
  now exists K, sel, cols, ex, st1, st2, st3.
Qed.

Lemma candidates_colors (selected_types cols : list string) n :
  forall s blocks,
    Forall2 (fun i b => is_candidate i selected_types cols b) (seq s n) blocks ->
    map b_color blocks = take n (drop s cols).
Proof.
  induction n as [| n IH]; intros s blocks Hall; cbn in Hall.
  - inversion Hall. reflexivity.
  - inversion Hall as [| i b idxs bs Hc Hrest]; subst. cbn [map].
    rewrite (IH _ _ Hrest).
    pose proof (cand_color _ _ _ _ Hc) as Hcol.
    rewrite (drop_S _ _ _ Hcol). reflexivity.
Qed.

(** The colours of the returned blocks are, in order, the list the colour
    balancer returned for their number. *)
Lemma generated_colors fuel st blocks st' :
  generate_placements fuel st = (Ret blocks, st') ->
  exists st2 st3,
    generate_balanced_colors (Z.of_nat (length blocks)) st2
      = (Ret (map b_color blocks), st3).
Proof.
  intros Hrun.
  destruct (generate_placements_inv _ _ _ _ Hrun)
    as (K & sel & cols & ex & st1 & st2 & st3 & HK & Hsel & Hcols & Hall).
  destruct (randint_4_5 st) as (K' & HK' & HK4).
  assert (K' = K) by congruence. subst K'.
  destruct (sample_spec block_types K st1)
    as (sel' & rest & st2' & Hsel' & Hlen1 & _); [cbn; lia |].
  assert (sel' = sel) by congruence. subst sel'.
  destruct (generate_balanced_colors_spec K st2 ltac:(lia))
    as (cols' & extra & st3' & Hcols' & Hlen2 & _).
  assert (cols' = cols) by congruence. subst cols'.
  assert (Hidx : Forall (fun i => is_Some (sel !! i) /\ is_Some (cols !! i)) (range K)).
  { apply Forall_forall. intros i Hi. unfold range in Hi.
    apply list_elem_of_In, in_seq in Hi.
    split; apply lookup_lt_is_Some_2; lia. }
  destruct (place_all_outcome fuel (range K) sel cols [] [] st3 Hidx)
    as [(new & st4 & Hrun4 & Hcand & _) | [st4 Hrun4]]; [| congruence].
  assert (new = blocks) by (cbn [app] in Hrun4; congruence). subst new.
  pose proof (Forall2_length _ _ _ Hcand) as Hlen.
  unfold range in Hlen, Hcand. rewrite length_seq in Hlen.
  rewrite (candidates_colors _ _ _ _ _ Hcand), drop_0.
  replace (Z.to_nat K) with (length cols) by lia. rewrite firstn_all.
  exists st2, st3. now replace (Z.of_nat (length blocks)) with K by lia.
Qed.

(** X6. The colours of the blocks the generator returns are balanced:
    four blocks carry the four palette colours, one each; five blocks
    carry the four palette colours and one of them a second time. *)
Theorem placements_colors_balanced fuel st blocks st' :
  generate_placements fuel st = (Ret blocks, st') ->
  (length blocks = 4%nat /\ Permutation colors (map b_color blocks)) \/
  (length blocks = 5%nat /\
   exists c, List.In c colors /\ Permutation (colors ++ [c]) (map b_color blocks)).
Proof.
  intros Hrun.
  destruct (generated_colors _ _ _ _ Hrun) as (st2 & st3 & Hcols).
  destruct (generate_placements_Ret _ _ _ _ Hrun) as [Hgen _].
  destruct (generate_balanced_colors_spec (Z.of_nat (length blocks)) st2 ltac:(lia))
    as (cols & extra & st3' & Hcols' & _ & _ & _ & _ & _ & Hincl & Hlen & Hperm & _).
  assert (cols = map b_color blocks) by congruence. subst cols.
  destruct (generated_length blocks Hgen) as [H4 | H5].
  - left. split; [exact H4 |]. rewrite H4 in Hlen, Hperm.
    destruct extra;
      [| exfalso; change (Z.of_nat 4 mod 4)%Z with 0%Z in Hlen; cbn [length] in Hlen; lia].
    now rewrite app_nil_r in Hperm.
  - right. split; [exact H5 |]. rewrite H5 in Hlen, Hperm.
    destruct extra as [| c [| c' extra]];
      try (exfalso; change (Z.of_nat 5 mod 4)%Z with 1%Z in Hlen; cbn [length] in Hlen; lia).
    exists c. split; [apply Hincl; now left | exact Hperm].
Qed.

Lemma placements_colors_balanced_witness :
  generate_placements 1 (init spread_draws) = (Ret spread_blocks, snd spread_run) /\
  ((length spread_blocks = 4%nat /\ Permutation colors (map b_color spread_blocks)) \/
   (length spread_blocks = 5%nat /\
    exists c, List.In c colors /\
      Permutation (colors ++ [c]) (map b_color spread_blocks))).
Proof.
  split; [exact spread_run_returns |].
  exact (placements_colors_balanced 1 (init spread_draws) spread_blocks
           (snd spread_run) spread_run_returns).
Defined.

(** ** A placement area with no free position *)







(** ** More on plugin injection *)

Lemma first_index_split {A} (P : A -> bool) (l : list A) i :
  first_index P l = Some i ->
  exists pre a post,
    l = (pre ++ a :: post)%list /\ Forall (fun b => P b = false) pre /\ P a = true.
Proof.
  revert i. induction l as [| a l IH]; intros i; cbn; [discriminate |].
  destruct (P a) eqn:E.
  - intros _. now exists [], a, l.
  - destruct (first_index P l) as [k |]; cbn; [| discriminate].
    intros _. destruct (IH k eq_refl) as (pre & a' & post & -> & Hpre & Ha').
    exists (a :: pre), a', post. repeat split; [now constructor | exact Ha'].
Qed.

Lemma first_index_None_Forall {A} (P : A -> bool) (l : list A) :
  first_index P l = None -> Forall (fun b => P b = false) l.
Proof.
  induction l as [| a l IH]; cbn; [constructor |].
  destruct (P a) eqn:E; [discriminate |].
  destruct (first_index P l); cbn; [discriminate |]. intros _.
  constructor; [exact E | now apply IH].
Qed.

Lemma sensor_block_has_no_closing_tag : contains "</model>" sensor_block = false.
Proof. vm_compute. reflexivity. Qed.

(** Where the fragment goes, and where it goes when the step is applied
    to its own result. *)
Lemma inject_plugin_split (sdf_lines : list string) :
  exists before after : list string,
    sdf_lines = (before ++ after)%list /\
    inject_plugin sdf_lines = (before ++ sensor_block :: after)%list /\
    inject_plugin (inject_plugin sdf_lines)
      = (before ++ sensor_block :: sensor_block :: after)%list /\
    Forall (fun l => contains "</model>" l = false) before /\
    (sdf_lines <> [] -> after <> []).
Proof.
  destruct (first_index (contains "</model>") sdf_lines) as [i |] eqn:E.
  - destruct (first_index_split _ _ _ E) as (pre & line & post & -> & Hpre & Hline).
    exists pre, (line :: post).
    rewrite (inject_plugin_found pre line post Hpre Hline).
    split; [reflexivity |]. split; [reflexivity |]. split; [| split].
    + change (pre ++ sensor_block :: line :: post)%list
        with (pre ++ [sensor_block] ++ line :: post)%list.
      rewrite app_assoc, inject_plugin_found; [now rewrite <- app_assoc | | exact Hline].
      apply Forall_app. split; [exact Hpre |].
      constructor; [exact sensor_block_has_no_closing_tag | constructor].
    + exact Hpre.
    + discriminate.
  - apply first_index_None_Forall in E.
    revert E. induction sdf_lines as [| last pre _] using rev_ind; intros E.
    + exists [], []. repeat split; try reflexivity; [constructor | congruence].
    + exists pre, [last]. rewrite (inject_plugin_fallback pre last E).
      split; [reflexivity |]. split; [reflexivity |]. split; [| split].
      * change (pre ++ [sensor_block; last])%list
          with (pre ++ [sensor_block] ++ [last])%list.
        rewrite app_assoc, inject_plugin_fallback; [now rewrite <- app_assoc |].
        apply Forall_app in E. destruct E as [Hpre Hlast].
        rewrite <- app_assoc. apply Forall_app. split; [exact Hpre |].
        constructor; [exact sensor_block_has_no_closing_tag | exact Hlast].
      * apply Forall_app in E. apply E.
      * discriminate.
Qed.

(** X8. Plugin injection is not idempotent: applied to its own result it
    puts a second copy of the fragment right next to the first one. *)
Theorem inject_plugin_twice (sdf_lines : list string) :
  exists before after : list string,
    sdf_lines = (before ++ after)%list /\
    inject_plugin sdf_lines = (before ++ sensor_block :: after)%list /\
    inject_plugin (inject_plugin sdf_lines)
      = (before ++ sensor_block :: sensor_block :: after)%list /\
    inject_plugin (inject_plugin sdf_lines) <> inject_plugin sdf_lines.
Proof.
  destruct (inject_plugin_split sdf_lines) as (before & after & H1 & H2 & H3 & _).
  exists before, after. split; [exact H1 |]. split; [exact H2 |]. split; [exact H3 |].
  rewrite H3, H2. intros Heq. apply (f_equal (@length string)) in Heq.
  rewrite !length_app in Heq. cbn [length] in Heq. lia.
Qed.

(** X9. No line in front of the inserted fragment contains the closing
    tag, and unless the converter printed no line at all the fragment is
    followed by at least one of the converter's lines. *)
Theorem inject_plugin_position (sdf_lines : list string) :
  exists before after : list string,
    sdf_lines = (before ++ after)%list /\
    inject_plugin sdf_lines = (before ++ sensor_block :: after)%list /\
    Forall (fun l => contains "</model>" l = false) before /\
    (sdf_lines <> [] -> after <> []).
Proof.
  destruct (inject_plugin_split sdf_lines) as (before & after & H1 & H2 & _ & H4 & H5).
  now exists before, after.
Qed.

(** ** What the model pipeline leaves on disk and in the call log *)

Section PipelineRuns.

Context `{Env}.

Lemma generate_urdf_Ret_inv b st urdf_output st1 :
  generate_urdf b st = (Ret urdf_output, st1) ->
  exists exe,
    which "xacro" = Some exe /\
    run_process (xacro_command exe b) st = (0%Z, urdf_output) /\
    st1 = written (logged st (xacro_command exe b)) (urdf_path b) urdf_output.
Proof.
  unfold generate_urdf, try_except_CalledProcessError, find_executable, bind,
    check_output, write_file, ret, raise.
  destruct (which "xacro") as [exe |]; cbn; [| discriminate].
  destruct (run_process (xacro_command exe b) st) as [rc out] eqn:Erun.
  destruct (rc =? 0)%Z eqn:E; cbn; [| discriminate].
  apply Z.eqb_eq in E. subst rc. intros [= <- <-]. now exists exe.
Qed.

Lemma convert_to_sdf_Ret_inv b st u st1 :
  convert_to_sdf b st = (Ret u, st1) ->
  exists exe sdf_output,
    which "gz" = Some exe /\
    run_process (sdf_command exe b) st = (0%Z, sdf_output) /\
    st1 = written (logged st (sdf_command exe b)) (sdf_path b)
            (String.concat nl (inject_plugin (splitlines sdf_output))).
Proof.
  unfold convert_to_sdf, try_except_CalledProcessError, find_executable, bind,
    check_output, write_file, ret, raise.
  destruct (which "gz") as [exe |]; cbn; [| discriminate].
  destruct (run_process (sdf_command exe b) st) as [rc out] eqn:Erun.
  destruct (rc =? 0)%Z eqn:E; cbn; [| discriminate].
  apply Z.eqb_eq in E. subst rc. intros [= <- <-]. now exists exe, out.
Qed.

Lemma paths_of_other_number (b d : block) :
  b_number b <> b_number d ->
  (urdf_path b <> urdf_path d /\ urdf_path b <> sdf_path d) /\
  (sdf_path b <> urdf_path d /\ sdf_path b <> sdf_path d).
Proof.
  intros Hne. repeat split.
  - intros Heq. exact (Hne (urdf_path_inj b d Heq)).
  - apply urdf_path_not_sdf_path.
  - intros Heq. exact (urdf_path_not_sdf_path d b (eq_sym Heq)).
  - intros Heq. exact (Hne (sdf_path_inj b d Heq)).
Qed.

Lemma build_instances_files blocks_config xacro gz :
  which "xacro" = Some xacro -> which "gz" = Some gz ->
  forall instances_cmds st acts st',
    build_instances blocks_config instances_cmds st = (Ret acts, st') ->
    List.NoDup (map b_number blocks_config) ->
    exists outs,
      tool_outputs xacro gz st blocks_config outs /\
      acts = (instances_cmds
                ++ concat (zip_with block_actions blocks_config (map fst outs)))%list /\
      Forall2 (fun b out => files_hold st' b (fst out) (snd out)) blocks_config outs.
Proof.
  intros Hx Hg.
  induction blocks_config as [| b rest IH]; intros acc st acts st' Hrun Hnd.
  - cbn in Hrun. inversion Hrun; subst. exists []. cbn. rewrite app_nil_r.
    split; [exact I |]. split; [reflexivity | constructor].
  - cbn [build_instances] in Hrun.
    apply bind_Ret_inv in Hrun. destruct Hrun as (u & st1 & Hurdf & Hrun).
    apply bind_Ret_inv in Hrun. destruct Hrun as ([] & st2 & Hsdf & Hrun).
    cbn [map] in Hnd. apply List.NoDup_cons_iff in Hnd. destruct Hnd as [Hnotin Hnd].
    destruct (generate_urdf_Ret_inv _ _ _ _ Hurdf) as (xacro' & Hx' & Hrun1 & ->).
    destruct (convert_to_sdf_Ret_inv _ _ _ _ Hsdf) as (gz' & out & Hg' & Hrun2 & ->).
    assert (xacro' = xacro) by congruence. assert (gz' = gz) by congruence. subst.
    destruct (IH _ _ _ _ Hrun Hnd) as (outs & Houts & -> & Hfiles).
    exists ((u, out) :: outs).
    split; [cbn [tool_outputs]; now repeat split |].
    split; [cbn; now rewrite <- !app_assoc |].
    constructor; [| exact Hfiles].
    assert (Hother : forall d, List.In d rest ->
              (urdf_path b <> urdf_path d /\ urdf_path b <> sdf_path d) /\
              (sdf_path b <> urdf_path d /\ sdf_path b <> sdf_path d)).
    { intros d Hd. apply paths_of_other_number. intros Heq. apply Hnotin.
      rewrite Heq. now apply in_map. }
    split; cbn [fst snd].
    + rewrite (build_instances_frame rest _ _ _ _ Hrun (urdf_path b))
        by (intros d Hd; apply (Hother d Hd)).
      cbn [written logged fs]. rewrite lookup_insert_ne
        by (intros Heq; exact (urdf_path_not_sdf_path b b (eq_sym Heq))).
      apply lookup_insert_eq.
    + rewrite (build_instances_frame rest _ _ _ _ Hrun (sdf_path b))
        by (intros d Hd; apply (Hother d Hd)).
      cbn [written logged fs]. apply lookup_insert_eq.
Qed.

(** The tools found when the loop over a non-empty list returns. *)
Lemma build_instances_tools b rest instances_cmds st acts st' :
  build_instances (b :: rest) instances_cmds st = (Ret acts, st') ->
  exists xacro gz, which "xacro" = Some xacro /\ which "gz" = Some gz.
Proof.
  intros Hrun. cbn [build_instances] in Hrun.
  apply bind_Ret_inv in Hrun. destruct Hrun as (u & st1 & Hurdf & Hrun).
  apply bind_Ret_inv in Hrun. destruct Hrun as ([] & st2 & Hsdf & _).
  destruct (generate_urdf_Ret_inv _ _ _ _ Hurdf) as (xacro & Hx & _).
  destruct (convert_to_sdf_Ret_inv _ _ _ _ Hsdf) as (gz & out & Hgz & _).
  now exists xacro, gz.
Qed.

Lemma build_instances_calls blocks_config xacro gz :
  which "xacro" = Some xacro -> which "gz" = Some gz ->
  forall instances_cmds st acts st',
    build_instances blocks_config instances_cmds st = (Ret acts, st') ->
    calls st' = (calls st ++ concat (map (block_commands xacro gz) blocks_config))%list.
Proof.
  intros Hx Hg.
  induction blocks_config as [| b rest IH]; intros acc st acts st' Hrun.
  - cbn in Hrun. inversion Hrun; subst. cbn. now rewrite app_nil_r.
  - cbn [build_instances] in Hrun.
    apply bind_Ret_inv in Hrun. destruct Hrun as (u & st1 & Hurdf & Hrun).
    apply bind_Ret_inv in Hrun. destruct Hrun as ([] & st2 & Hsdf & Hrun).
    rewrite (IH _ _ _ _ Hrun).
    destruct (generate_urdf_Ret_inv _ _ _ _ Hurdf) as (xacro' & Hx' & _ & ->).
    destruct (convert_to_sdf_Ret_inv _ _ _ _ Hsdf) as (gz' & out & Hg' & _ & ->).
    assert (xacro' = xacro) by congruence. assert (gz' = gz) by congruence. subst.
    cbn [written logged calls map concat block_commands app].
    now rewrite <- !app_assoc.
Qed.

(** Whatever its outcome, the loop over the blocks leaves every path
    alone that is not a file of one of its blocks. *)
Lemma spawn_block_frame fuel st p :
  (forall b : block, p <> urdf_path b /\ p <> sdf_path b) ->
  fs (snd (spawn_block fuel st)) !! p = fs st !! p.
Proof.
  intros Hp. unfold spawn_block, bind.
  pose proof (keeps_world_generate_placements fuel st) as [Hfs _].
  destruct (generate_placements fuel st) as [[blocks | e |] st0]; cbn [snd] in *;
    try (now rewrite Hfs).
  rewrite <- Hfs.
  destruct (build_instances blocks [] st0) as [r st'] eqn:E. cbn [snd].
  apply (build_instances_frame blocks [] st0 r st' E). intros d _. apply Hp.
Qed.

Lemma models_path_relative (name : string) :
  startswith_sep name = false -> models_path name = models_prefix ++ name.
Proof.
  intros Hrel. unfold models_path, os_path_join, models_prefix. cbn [fold_left].
  set (p := path_join2 (get_package_share_directory package_name) "models").
  unfold path_join2 at 1. rewrite Hrel.
  destruct (String.eqb p "" || endswith_sep p); [reflexivity |].
  now rewrite string_app_assoc.
Qed.

End PipelineRuns.

Lemma generated_nonempty blocks : generated blocks -> blocks <> [].
Proof.
  intros Hgen Hnil. destruct (generated_length blocks Hgen) as [H4 | H5];
    subst; discriminate.
Qed.

(** X10. When [spawn_block] returns, both tools were found and, block
    by block, each command exited with status 0; the URDF file of every
    block holds exactly what the xacro command printed for it, which is
    also the robot_description of its state publisher, and the file that
    the block's spawn node names after -file is the block's SDF file and
    holds what the gz command printed for that block, split into lines,
    with the plugin fragment inserted and joined again. No later block has
    overwritten a file of an earlier one, and whatever the paths held
    before the launch is gone. *)
Theorem spawn_block_files `{Env} fuel st acts st' :
  spawn_block fuel st = (Ret acts, st') ->
  exists blocks st0 xacro gz outs,
    generate_placements fuel st = (Ret blocks, st0) /\
    which "xacro" = Some xacro /\ which "gz" = Some gz /\
    tool_outputs xacro gz st0 blocks outs /\
    acts = concat (zip_with block_actions blocks (map fst outs)) /\
    Forall2 (fun b out =>
      fs st' !! urdf_path b = Some (fst out) /\
      argument_after "-file" (arguments_of (spawn_node b)) = Some (Text (sdf_path b)) /\
      fs st' !! sdf_path b
      = Some (String.concat nl (inject_plugin (splitlines (snd out))))) blocks outs.
Proof.
  intros Hrun. unfold spawn_block in Hrun.
  apply bind_Ret_inv in Hrun. destruct Hrun as (blocks & st0 & Hgen & Hbuild).
  destruct (generate_placements_Ret _ _ _ _ Hgen) as [Hg _].
  pose proof (generated_nonempty blocks Hg) as Hne.
  destruct blocks as [| b rest]; [contradiction |].
  destruct (build_instances_tools _ _ _ _ _ _ Hbuild) as (xacro & gz & Hx & Hgz).
  destruct (build_instances_files (b :: rest) xacro gz Hx Hgz [] st0 acts st' Hbuild
              (generated_numbers_NoDup _ Hg)) as (outs & Houts & Hacts & Hfiles).
  exists (b :: rest), st0, xacro, gz, outs.
  split; [exact Hgen |]. split; [exact Hx |]. split; [exact Hgz |].
  split; [exact Houts |]. split; [exact Hacts |].
  eapply Forall2_impl; [exact Hfiles |].
  intros d out [Hu Hs]. split; [exact Hu |]. split; [reflexivity | exact Hs].
Qed.

Lemma spawn_block_files_witness :
  @spawn_block tools_ok 1 (init spread_draws) = (Ret ok_actions, snd ok_run) /\
  exists blocks st0 xacro gz outs,
    generate_placements 1 (init spread_draws) = (Ret blocks, st0) /\
    @which tools_ok "xacro" = Some xacro /\ @which tools_ok "gz" = Some gz /\
    @tool_outputs tools_ok xacro gz st0 blocks outs /\
    ok_actions = concat (zip_with (@block_actions tools_ok) blocks (map fst outs)) /\
    Forall2 (fun b out =>
      fs (snd ok_run) !! @urdf_path tools_ok b = Some (fst out) /\
      argument_after "-file" (arguments_of (@spawn_node tools_ok b))
      = Some (Text (@sdf_path tools_ok b)) /\
      fs (snd ok_run) !! @sdf_path tools_ok b
      = Some (String.concat nl (inject_plugin (@splitlines tools_ok (snd out)))))
      blocks outs.
Proof.
  split; [exact ok_run_returns |].
  exact (@spawn_block_files tools_ok 1 (init spread_draws) ok_actions (snd ok_run)
           ok_run_returns).
Defined.

(** X11. When [spawn_block] returns, the commands it has run are, block
    by block in the order of the blocks, the xacro command and then the
    gz command of that block: each tool ran once per block and nothing
    else was run. *)
Theorem spawn_block_call_log `{Env} fuel st acts st' :
  spawn_block fuel st = (Ret acts, st') ->
  exists blocks st0 xacro gz,
    generate_placements fuel st = (Ret blocks, st0) /\
    which "xacro" = Some xacro /\ which "gz" = Some gz /\
    calls st' = (calls st ++ concat (map (block_commands xacro gz) blocks))%list.
Proof.
  intros Hrun. unfold spawn_block in Hrun.
  apply bind_Ret_inv in Hrun. destruct Hrun as (blocks & st0 & Hgen & Hbuild).
  destruct (generate_placements_Ret _ _ _ _ Hgen) as [Hg [_ Hcalls]].
  pose proof (generated_nonempty blocks Hg) as Hne.
  destruct blocks as [| b rest]; [contradiction |].
  pose proof Hbuild as Hfirst. cbn [build_instances] in Hfirst.
  apply bind_Ret_inv in Hfirst. destruct Hfirst as (u & st1 & Hurdf & Hfirst).
  apply bind_Ret_inv in Hfirst. destruct Hfirst as ([] & st2 & Hsdf & _).
  destruct (generate_urdf_Ret_inv _ _ _ _ Hurdf) as (xacro & Hx & _).
  destruct (convert_to_sdf_Ret_inv _ _ _ _ Hsdf) as (gz & out & Hgz & _).
  exists (b :: rest), st0, xacro, gz.
  split; [exact Hgen |]. split; [exact Hx |]. split; [exact Hgz |].
  rewrite (build_instances_calls (b :: rest) xacro gz Hx Hgz _ _ _ _ Hbuild).
  now rewrite Hcalls.
Qed.

Lemma spawn_block_call_log_witness :
  @spawn_block tools_ok 1 (init spread_draws) = (Ret ok_actions, snd ok_run) /\
  exists blocks st0 xacro gz,
    generate_placements 1 (init spread_draws) = (Ret blocks, st0) /\
    @which tools_ok "xacro" = Some xacro /\ @which tools_ok "gz" = Some gz /\
    calls (snd ok_run)
    = (calls (init spread_draws)
         ++ concat (map (@block_commands tools_ok xacro gz) blocks))%list.
Proof.
  split; [exact ok_run_returns |].
  exact (@spawn_block_call_log tools_ok 1 (init spread_draws) ok_actions (snd ok_run)
           ok_run_returns).
Defined.

Lemma spread_run_returns_cons :
  generate_placements 1 (init spread_draws)
  = (Ret (spread_first :: spread_rest), snd spread_run).
Proof. vm_compute. reflexivity. Qed.

(** X12. A tool that is not installed is not reported as RuntimeError:
    the SubstitutionFailure of the lookup passes the except clause
    unchanged. Without xacro nothing is run or written; without gz the
    first block's xacro has run and its URDF file is written. *)
Theorem missing_tool_is_not_wrapped `{Env} fuel st b rest st0 :
  generate_placements fuel st = (Ret (b :: rest), st0) ->
  (which "xacro" = None ->
   spawn_block fuel st =
     (Raise (SubstitutionFailure "executable 'xacro' not found on the PATH"), st0)) /\
  (forall xacro urdf_output,
     which "xacro" = Some xacro ->
     run_process (xacro_command xacro b) st0 = (0%Z, urdf_output) ->
     which "gz" = None ->
     spawn_block fuel st =
       (Raise (SubstitutionFailure "executable 'gz' not found on the PATH"),
        written (logged st0 (xacro_command xacro b)) (urdf_path b) urdf_output)).
Proof.
  intros Hgen. split.
  - intros Hx. unfold spawn_block. rewrite (bind_Ret _ _ _ _ _ Hgen).
    cbn [build_instances]. apply bind_Raise.
    unfold generate_urdf, try_except_CalledProcessError, find_executable.
    rewrite Hx. reflexivity.
  - intros xacro u Hx Hrun Hgz. unfold spawn_block. rewrite (bind_Ret _ _ _ _ _ Hgen).
    cbn [build_instances].
    rewrite (bind_Ret _ _ _ _ _ (generate_urdf_ok b st0 xacro u Hx Hrun)).
    apply bind_Raise.
    unfold convert_to_sdf, try_except_CalledProcessError, find_executable.
    rewrite Hgz. reflexivity.
Qed.

Lemma missing_tool_is_not_wrapped_witness :
  generate_placements 1 (init spread_draws)
    = (Ret (spread_first :: spread_rest), snd spread_run) /\
  @which tools_missing "xacro" = None /\
  @spawn_block tools_missing 1 (init spread_draws) =
    (Raise (SubstitutionFailure "executable 'xacro' not found on the PATH"),
     snd spread_run).
Proof.
  split; [exact spread_run_returns_cons |]. split; [reflexivity |].
  exact (proj1 (@missing_tool_is_not_wrapped tools_missing 1 (init spread_draws)
                  spread_first spread_rest (snd spread_run) spread_run_returns_cons)
           eq_refl).
Defined.

(** X13. Nothing is cleaned up: whatever happens to the later blocks
    (one of them fails, or all succeed), the URDF and the SDF file of
    every block already processed exist and hold, when [spawn_block] ends,
    the very contents they held when that block was done. *)
Theorem processed_blocks_keep_files `{Env} fuel st done rest st0 acc st1 :
  generate_placements fuel st = (Ret (done ++ rest)%list, st0) ->
  build_instances done [] st0 = (Ret acc, st1) ->
  Forall (fun d =>
    is_Some (fs st1 !! urdf_path d) /\ is_Some (fs st1 !! sdf_path d) /\
    fs (snd (spawn_block fuel st)) !! urdf_path d = fs st1 !! urdf_path d /\
    fs (snd (spawn_block fuel st)) !! sdf_path d = fs st1 !! sdf_path d) done.
Proof.
  intros Hgen Hdone.
  destruct (generate_placements_Ret _ _ _ _ Hgen) as [Hg _].
  pose proof (generated_numbers_NoDup _ Hg) as Hnd. rewrite map_app in Hnd.
  assert (Hend : snd (spawn_block fuel st) = snd (build_instances rest acc st1)).
  { unfold spawn_block. rewrite (bind_Ret _ _ _ _ _ Hgen), build_instances_app.
    now rewrite (bind_Ret _ _ _ _ _ Hdone). }
  rewrite Hend. destruct (build_instances rest acc st1) as [r st2] eqn:E. cbn [snd].
  assert (Hsome : forall d, List.In d done ->
            is_Some (fs st1 !! urdf_path d) /\ is_Some (fs st1 !! sdf_path d)).
  { destruct done as [| b done']; [intros d [] |].
    destruct (build_instances_tools _ _ _ _ _ _ Hdone) as (xacro & gz & Hx & Hgz).
    destruct (build_instances_files (b :: done') xacro gz Hx Hgz [] st0 acc st1 Hdone
                (List.NoDup_app_remove_r _ _ Hnd)) as (outs & _ & _ & Hfiles).
    intros d Hd. apply list_elem_of_In, list_elem_of_lookup in Hd. destruct Hd as [k Hk].
    destruct (Forall2_lookup_l _ _ _ _ _ Hfiles Hk) as (out & _ & Hu & Hs).
    split; eexists; eassumption. }
  apply Forall_forall. intros d Hd. apply list_elem_of_In in Hd.
  destruct (Hsome d Hd) as [Hsu Hss].
  split; [exact Hsu |]. split; [exact Hss |].
  assert (Hother : forall e, List.In e rest -> b_number d <> b_number e).
  { intros e He Heq.
    destruct (proj1 (NoDup_app (map b_number done) (map b_number rest))
                (proj2 (NoDup_ListNoDup _) Hnd)) as (_ & Hdisj & _).
    apply (Hdisj (b_number d)); apply list_elem_of_In;
      [now apply in_map | rewrite Heq; now apply in_map]. }
  split; apply (build_instances_frame rest acc st1 r st2 E); intros e He;
    apply (paths_of_other_number d e (Hother e He)).
Qed.

Lemma first_done_run_returns :
  @build_instances second_fails [spread_first] [] (snd spread_run)
  = (Ret first_done_actions, snd first_done_run).
Proof. vm_compute. reflexivity. Qed.

Lemma spread_run_returns_app :
  generate_placements 1 (init spread_draws)
  = (Ret ([spread_first] ++ spread_rest)%list, snd spread_run).
Proof. vm_compute. reflexivity. Qed.

Example second_block_fails :
  fst (@spawn_block second_fails 1 (init spread_draws)) =
  Raise (RuntimeError
    ("Error generating URDF: Command '[/usr/bin/xacro, "
     ++ "/opt/ros/share/ros2_ur5_interface/models/block.urdf.xacro, "
     ++ "block_name:=2, block_type:=X1-Y4-Z1, block_color:=1.0 0.0 0.0 1]' "
     ++ "returned non-zero exit status 2.")).
Proof. vm_compute. reflexivity. Qed.

Lemma processed_blocks_keep_files_witness :
  generate_placements 1 (init spread_draws)
    = (Ret ([spread_first] ++ spread_rest)%list, snd spread_run) /\
  @build_instances second_fails [spread_first] [] (snd spread_run)
    = (Ret first_done_actions, snd first_done_run) /\
  Forall (fun d =>
    is_Some (fs (snd first_done_run) !! @urdf_path second_fails d) /\
    is_Some (fs (snd first_done_run) !! @sdf_path second_fails d) /\
    fs (snd (@spawn_block second_fails 1 (init spread_draws))) !! @urdf_path second_fails d
    = fs (snd first_done_run) !! @urdf_path second_fails d /\
    fs (snd (@spawn_block second_fails 1 (init spread_draws))) !! @sdf_path second_fails d
    = fs (snd first_done_run) !! @sdf_path second_fails d) [spread_first].
Proof.
  split; [exact spread_run_returns_app |]. split; [exact first_done_run_returns |].
  exact (@processed_blocks_keep_files second_fails 1 (init spread_draws)
           [spread_first] spread_rest (snd spread_run) first_done_actions
           (snd first_done_run) spread_run_returns_app first_done_run_returns).
Defined.

Lemma xacro_ext_not_block_ext (n : string) :
  ".urdf.xacro" <> n ++ ".urdf" /\ ".urdf.xacro" <> n ++ ".sdf".
Proof.
  split; intros Heq; apply (f_equal list_ascii_of_string) in Heq;
    rewrite list_ascii_of_string_app in Heq;
    apply (f_equal (@List.rev ascii)) in Heq; rewrite rev_app_distr in Heq;
    cbn in Heq; discriminate.
Qed.

(** X14. Whatever its outcome, [spawn_block] writes neither the xacro
    template it reads nor the camera model of the same directory: the
    only paths it writes are the block files. *)
Theorem template_and_camera_untouched `{Env} fuel st :
  fs (snd (spawn_block fuel st)) !! xacro_file = fs st !! xacro_file /\
  fs (snd (spawn_block fuel st)) !! models_path "camera.sdf"
    = fs st !! models_path "camera.sdf".
Proof.
  split; apply spawn_block_frame; intros b; unfold xacro_file, urdf_path, sdf_path.
  - change "block.urdf.xacro" with ("block" ++ ".urdf.xacro").
    rewrite !models_path_block.
    split; intros Heq; apply String.app_inj in Heq;
      apply (String.app_inj "block") in Heq;
      [exact (proj1 (xacro_ext_not_block_ext _) Heq)
      | exact (proj2 (xacro_ext_not_block_ext _) Heq)].
  - rewrite (models_path_relative "camera.sdf" eq_refl), !models_path_block.
    split; intros Heq; apply String.app_inj in Heq; discriminate.
Qed.

(** ** Names in the startup plan *)

Lemma block_publishers_namespaces `{Env} blocks : forall urdfs,
  length urdfs = length blocks ->
  map namespace_of (zip_with block_robot_state_publisher_node blocks urdfs)
  = map (fun n => Some ("block" ++ n)) (map b_number blocks).
Proof.
  induction blocks as [| b blocks IH]; intros [| u urdfs] Hlen; try discriminate;
    [reflexivity |].
  cbn [zip_with map]. rewrite IH by (cbn in Hlen; lia). reflexivity.
Qed.

(** X16. All robot_state_publisher nodes of a launch carry the same node
    name, and their namespaces are pairwise different: none for the
    robot, desk for the desk, and block1, block2, ... for the blocks. *)
Theorem state_publishers_have_own_namespaces `{Env} fuel st blocks st' urdfs :
  generate_placements fuel st = (Ret blocks, st') ->
  length urdfs = length blocks ->
  List.NoDup
    (map namespace_of
       (ur_robot_state_publisher_node :: desk_state_publisher_node
          :: zip_with block_robot_state_publisher_node blocks urdfs)) /\
  Forall (fun a => match a with
                   | Node n => n_name n = Some "robot_state_publisher"
                   | _ => False
                   end)
    (ur_robot_state_publisher_node :: desk_state_publisher_node
       :: zip_with block_robot_state_publisher_node blocks urdfs).
Proof.
  intros Hgen Hlen.
  destruct (generate_placements_Ret _ _ _ _ Hgen) as [Hg _].
  split.
  - cbn [map]. rewrite (block_publishers_namespaces blocks urdfs Hlen).
    change (namespace_of ur_robot_state_publisher_node) with (@None string).
    change (namespace_of desk_state_publisher_node) with (Some "desk").
    constructor; [| constructor].
    + intros [Hin | Hin]; [discriminate |].
      apply in_map_iff in Hin. destruct Hin as (n & Hn & _). discriminate.
    + intros Hin. apply in_map_iff in Hin. destruct Hin as (n & Hn & _).
      discriminate.
    + apply Finite.Injective_map_NoDup; [| now apply generated_numbers_NoDup].
      intros n m Hnm. injection Hnm as Hnm. now apply String.app_inj in Hnm.
  - constructor; [reflexivity |]. constructor; [reflexivity |].
    clear Hgen Hg. revert urdfs Hlen.
    induction blocks as [| b blocks IH]; intros [| u urdfs] Hlen; try discriminate;
      [constructor |].
    cbn [zip_with]. constructor; [reflexivity |]. apply IH. cbn in Hlen. lia.
Qed.

Lemma state_publishers_have_own_namespaces_witness :
  generate_placements 1 (init spread_draws) = (Ret spread_blocks, snd spread_run) /\
  length ["a"; "b"; "c"; "d"] = length spread_blocks /\
  List.NoDup
    (map namespace_of
       (@ur_robot_state_publisher_node :: @desk_state_publisher_node
          :: zip_with (@block_robot_state_publisher_node) spread_blocks
               ["a"; "b"; "c"; "d"])).
Proof.
  split; [exact spread_run_returns |]. split; [reflexivity |].
  exact (proj1 (@state_publishers_have_own_namespaces tools_ok 1 (init spread_draws)
                  spread_blocks (snd spread_run) ["a"; "b"; "c"; "d"]
                  spread_run_returns eq_refl)).
Defined.

(** X17. In the startup plan the environment variable is set right after
    the declared argument and before every other action; the visualizer
    is no element of the plan itself: it is the one action the last
    element starts when the joint_state_broadcaster spawner, an element
    of the plan, has exited. *)
Theorem launch_plan_order `{Env} :
  take 2 generate_launch_description = (declared_arguments ++ [set_env_vars])%list /\
  length declared_arguments = 1%nat /\
  existsb is_visualizer generate_launch_description = false /\
  List.In joint_state_broadcaster_spawner generate_launch_description /\
  exists visualizer,
    last generate_launch_description
    = Some (RegisterEventHandler joint_state_broadcaster_spawner [visualizer]) /\
    is_visualizer visualizer = true.
Proof.
  split; [reflexivity |]. split; [reflexivity |]. split; [reflexivity |].
  split; [do 7 right; now left |].
  eexists. split; reflexivity.
Qed.

(** ** Room for the first three blocks *)





